(** * The bounded server-instance cache and the JSON-RPC dispatcher

    A shallow embedding of the API-key entry point of the 3D Abstract
    Moodboard MCP server: the [LRUCache] class, [getOrCreateServer],
    [handleHTTPTransport] and its method handlers, and the
    [generate_mood_scene] handler of the OAuth-bound server.

    Conventions of the embedding.
    - A JS [Map] is an association list in insertion order with one
      binding per key: iteration order is list order, [Map.set] on a
      present key updates the binding where it stands, on an absent key
      appends it.
    - [Date.now()] returns an integer number of milliseconds; every
      operation that reads the clock takes its reading as an argument
      ([now]), or draws it from the clock oracle of the world.
    - A call that may throw returns a [completion]; effects on the
      module-level state are threaded through a state-and-exception
      monad. *)

From Stdlib Require Import ZArith List Bool String Ascii Lia Sorted.
Import ListNotations.
Open Scope string_scope.
Open Scope list_scope.
Open Scope Z_scope.

Set Implicit Arguments.

(** ** Completions

    A JS call either returns a value or throws; the thrown value is kept
    as its message ([error.message], or [String(error)]). *)

Inductive completion (A : Type) : Type :=
| Normal (a : A)
| Throw (error : string).

Arguments Normal {A} a.
Arguments Throw {A} error.

(** ** The JS [Map], keyed by strings *)

Module JsMap.
Section Assoc.
Variable V : Type.

Definition t := list (string * V).

Fixpoint get (key : string) (m : t) : option V :=
  match m with
  | [] => None
  | (k, v) :: rest => if String.eqb key k then Some v else get key rest
  end.

Definition has (key : string) (m : t) : bool :=
  match get key m with Some _ => true | None => false end.

Fixpoint set (key : string) (v : V) (m : t) : t :=
  match m with
  | [] => [(key, v)]
  | (k, v') :: rest =>
      if String.eqb key k then (k, v) :: rest else (k, v') :: set key v rest
  end.

Fixpoint delete (key : string) (m : t) : t :=
  match m with
  | [] => []
  | (k, v) :: rest =>
      if String.eqb key k then rest else (k, v) :: delete key rest
  end.

Definition size (m : t) : Z := Z.of_nat (List.length m).

Definition keys (m : t) : list string := List.map fst m.

(** One binding per key, as in every [Map]. *)
Definition wf (m : t) : Prop := NoDup (keys m).

End Assoc.
End JsMap.

(** ** Events sent to the logger

    [logger] (./shared/logger) is a fire-and-forget sink; the embedding
    keeps the events a call emits, in order. *)

Inductive LogEvent : Type :=
| lru_cache_eviction (evicted_user_id : string) (cache_size : Z)
| auth_attempt (user : option (string * string)) (success : bool)
| tool_completed (tool user_id user_email : string) (duration_ms : Z)
| tool_failed (tool error : string)
| server_error (error context : string).

(** ** class LRUCache<K, V>, at K = string *)

Module LRU.

(** [oldestTime] starts at [Infinity]; timestamps are finite. *)
Inductive number : Type :=
| Finite (z : Z)
| Infinity.

Definition lt (a : Z) (b : number) : bool :=
  match b with
  | Finite z => a <? z
  | Infinity => true
  end.

Section Class.
Variable V : Type.

Record Entry : Type := mkEntry { value : V; lastAccessed : Z }.

Record LRUCache : Type := mkCache { cache : JsMap.t Entry; maxSize : Z }.

(** constructor(maxSize): stores its argument, never throws. *)
Definition constructor (maxSize : Z) : completion LRUCache :=
  Normal {| cache := []; maxSize := maxSize |}.

(** get(key): a hit rewrites [lastAccessed] of the entry found. *)
Definition get (key : string) (now : Z) (c : LRUCache)
  : option V * LRUCache :=
  match JsMap.get key (cache c) with
  | Some entry =>
      (Some (value entry),
       {| cache := JsMap.set key
                     {| value := value entry; lastAccessed := now |}
                     (cache c);
          maxSize := maxSize c |})
  | None => (None, c)
  end.

Definition has (key : string) (c : LRUCache) : bool :=
  JsMap.has key (cache c).

Definition size (c : LRUCache) : Z := JsMap.size (cache c).

(** The loop of evictLRU: [oldestKey] and [oldestTime] after the
    entries were visited in iteration order. *)
Fixpoint scan (entries : JsMap.t Entry)
              (oldestKey : option string) (oldestTime : number)
  : option string * number :=
  match entries with
  | [] => (oldestKey, oldestTime)
  | (key, entry) :: rest =>
      if lt (lastAccessed entry) oldestTime
      then scan rest (Some key) (Finite (lastAccessed entry))
      else scan rest oldestKey oldestTime
  end.

(** The key evictLRU settles on, [None] for [undefined]. *)
Definition oldest (c : LRUCache) : option string :=
  fst (scan (cache c) None Infinity).

(** evictLRU(): the events logged and the cache afterwards. *)
Definition evictLRU (c : LRUCache) : list LogEvent * LRUCache :=
  match oldest c with
  | Some oldestKey =>
      ([lru_cache_eviction oldestKey (size c)],
       {| cache := JsMap.delete oldestKey (cache c);
          maxSize := maxSize c |})
  | None => ([], c)
  end.

(** set(key, value) *)
Definition set (key : string) (v : V) (now : Z) (c : LRUCache)
  : list LogEvent * LRUCache :=
  let '(events, c1) :=
    if (maxSize c <=? size c) && negb (JsMap.has key (cache c))
    then evictLRU c
    else ([], c) in
  (events,
   {| cache := JsMap.set key {| value := v; lastAccessed := now |} (cache c1);
      maxSize := maxSize c1 |}).

(** The keys named by eviction events. *)
Definition evicted (events : list LogEvent) : list string :=
  flat_map (fun e => match e with
                     | lru_cache_eviction k _ => [k]
                     | _ => []
                     end) events.

(** *** Sequences of operations

    Each operation carries the clock reading it would take. *)
Inductive Op : Type :=
| OpGet (key : string) (now : Z)
| OpSet (key : string) (v : V) (now : Z)
| OpHas (key : string).

Definition step (o : Op) (c : LRUCache) : LRUCache :=
  match o with
  | OpGet key now => snd (get key now c)
  | OpSet key v now => snd (set key v now c)
  | OpHas key => let _ := has key c in c
  end.

(** The cache after each operation of [ops], in order. *)
Fixpoint states (ops : list Op) (c : LRUCache) : list LRUCache :=
  match ops with
  | [] => []
  | o :: rest => step o c :: states rest (step o c)
  end.

(** *** The touch scenario

    A cache of capacity [capacity] receives set(u1), set(u2), get(u1),
    set(u3) at the clock readings t1..t4; the result is what the last
    [set] logged. *)
Definition touch_scenario (capacity : Z) (u1 u2 u3 : string) (v1 v2 v3 : V)
                          (t1 t2 t3 t4 : Z) : list LogEvent :=
  match constructor capacity with
  | Normal c0 =>
      let c1 := snd (set u1 v1 t1 c0) in
      let c2 := snd (set u2 v2 t2 c1) in
      let c3 := snd (get u1 t3 c2) in
      fst (set u3 v3 t4 c3)
  | Throw _ => []
  end.

End Class.

Arguments constructor {V} maxSize.
Arguments OpGet {V} key now.
Arguments OpHas {V} key.

End LRU.

(** ** JSON values and the JS operators applied to them

    Numbers are integers here: the fields the handlers look at (ids,
    complexity, height) are integers by their schema. A JS value is a
    JSON value or [undefined]. *)

#[local] Unset Elimination Schemes.

Inductive json : Type :=
| JNull
| JBool (b : bool)
| JNum (n : Z)
| JStr (s : string)
| JArr (items : list json)
| JObj (fields : list (string * json)).

#[local] Set Elimination Schemes.

Definition jsvalue : Type := option json.

Definition undefined : jsvalue := None.

(** [v.name] for a [v] that is not null: only objects carry the
    properties the handlers read. *)
Definition property (name : string) (v : json) : jsvalue :=
  match v with
  | JObj fields => JsMap.get name fields
  | _ => undefined
  end.

(** [v?.name] *)
Definition optional_property (name : string) (v : jsvalue) : jsvalue :=
  match v with
  | None | Some JNull => undefined
  | Some o => property name o
  end.

Definition truthy (v : jsvalue) : bool :=
  match v with
  | None | Some JNull => false
  | Some (JBool b) => b
  | Some (JNum n) => negb (n =? 0)
  | Some (JStr s) => negb (String.eqb s "")
  | Some (JArr _) | Some (JObj _) => true
  end.

(** [v || d] for a default [d] that is a JSON value. *)
Definition or_else (v : jsvalue) (d : json) : json :=
  match v with
  | Some x => if truthy v then x else d
  | None => d
  end.

(** [v === "literal"] *)
Definition is_string (literal : string) (v : jsvalue) : bool :=
  match v with
  | Some (JStr s) => String.eqb s literal
  | _ => false
  end.

(** *** Conversion to a string

    A template literal [`${v}`], and a property key [table[v]], convert
    [v] to a string. For a value parsed from JSON the conversion throws
    a TypeError exactly when it meets an object that has a key
    "toString" of its own (the value under it cannot be called, and
    valueOf gives the object back); an array converts its elements,
    null ones apart. *)

Fixpoint conversion_throws (v : json) : bool :=
  match v with
  | JObj fields => JsMap.has "toString" fields
  | JArr items => existsb conversion_throws items
  | _ => false
  end.

Definition cannot_convert : string :=
  "Cannot convert object to primitive value".

(** The effect of converting [v] to a string, [undefined] included. *)
Definition to_string (v : jsvalue) : completion unit :=
  match v with
  | Some x => if conversion_throws x then Throw cannot_convert else Normal tt
  | None => Normal tt
  end.

(** The effect of converting [v] to a number, as [v * 2] does: the
    conversion to a primitive is the one above, valueOf being tried
    before toString. *)
Definition to_number (v : json) : completion unit :=
  if conversion_throws v then Throw cannot_convert else Normal tt.

(** ** String methods

    Strings are sequences of code units below 256; the white space of
    [trim] in that range is TAB, LF, VT, FF, CR, SP and NBSP. *)

Module Str.

Definition is_space (c : ascii) : bool :=
  let n := nat_of_ascii c in
  ((9 <=? n)%nat && (n <=? 13)%nat) || (n =? 32)%nat || (n =? 160)%nat.

Fixpoint trimStart (s : string) : string :=
  match s with
  | EmptyString => EmptyString
  | String c rest => if is_space c then trimStart rest else s
  end.

Fixpoint trimEnd (s : string) : string :=
  match s with
  | EmptyString => EmptyString
  | String c rest =>
      match trimEnd rest with
      | EmptyString => if is_space c then EmptyString else String c EmptyString
      | kept => String c kept
      end
  end.

Definition trim (s : string) : string := trimEnd (trimStart s).

Definition startsWith (pat s : string) : bool := String.prefix pat s.

Definition endsWith (pat s : string) : bool :=
  (String.length pat <=? String.length s)%nat &&
  String.eqb
    (String.substring (String.length s - String.length pat)
                      (String.length pat) s)
    pat.

(** [s.slice(n)] for [0 <= n] *)
Definition slice_from (n : nat) (s : string) : string :=
  String.substring n (String.length s - n) s.

(** [s.slice(0, -n)] *)
Definition slice_until_last (n : nat) (s : string) : string :=
  String.substring 0 (String.length s - n) s.

(** [s.replace(pat, "")] for a string pattern: the first occurrence
    goes. *)
Fixpoint remove_first (pat s : string) : string :=
  if String.prefix pat s then slice_from (String.length pat) s
  else match s with
       | EmptyString => EmptyString
       | String c rest => String c (remove_first pat rest)
       end.

End Str.

(** cleanupCode of ai-prompt-enhancer *)
Definition cleanupCode (code : string) : string :=
  let cleaned := Str.trim code in
  let cleaned :=
    if Str.startsWith "```javascript" cleaned
    then Str.slice_from (String.length "```javascript") cleaned
    else if Str.startsWith "```js" cleaned
    then Str.slice_from (String.length "```js") cleaned
    else if Str.startsWith "```" cleaned
    then Str.slice_from 3 cleaned
    else cleaned in
  let cleaned :=
    if Str.endsWith "```" cleaned
    then Str.slice_until_last 3 cleaned
    else cleaned in
  Str.trim cleaned.

(** ** The environment and the collaborators

    The modules behind these bindings are not part of the sources read
    here; each is taken as it is observed through the one function that
    uses it:
    - [AI]: what [env.AI.run] answers to the prompts built from an
      emotion and a complexity (an object with or without a string
      [response], or a string), or the error it rejects with;
    - [ASSETS]: [loadHtml(env.ASSETS, path)];
    - [DB]: [validateApiKey(apiKey, env)], the user id and email of a
      valid key. *)

Inductive AiResponse : Type :=
| AiObject (response : option string)
| AiString (text : string).

(** The text taken from the answer of the model: its [response] when it
    is an object that has one, [String(response)] otherwise. *)
Definition response_text (response : AiResponse) : string :=
  match response with
  | AiObject (Some text) => text
  | AiObject None => "[object Object]"
  | AiString text => text
  end.

Record Env : Type := mkEnv {
  AI : json -> json -> completion AiResponse;
  AI_GATEWAY_ID : option string;
  ASSETS : string -> completion string;
  DB : string -> completion (option (string * string))
}.

(** ** Requests and responses *)

Record Request : Type := mkRequest {
  authorization : option string;   (* the Authorization header *)
  body : completion json           (* what request.json() resolves to *)
}.

Record JsonRpcRequest : Type := mkRpc {
  jsonrpc : jsvalue;
  id : jsvalue;
  method : jsvalue;
  params : jsvalue
}.

Record SceneResult : Type := mkScene {
  code : string;
  emotion : json;
  height : json
}.

(** The text item of a tool result. *)
Inductive ToolText : Type :=
| StringifyResult (result : SceneResult)   (* JSON.stringify(result, null, 2) *)
| ErrorText (text : string)
| Documentation (category : json).         (* MOOD_PRIMITIVES_DOCUMENTATION[category] *)

Record CallToolResult : Type := mkToolResult {
  content : ToolText;
  structuredContent : option SceneResult;
  isError : bool
}.

Inductive RpcResult : Type :=
| NullResult
| InitializeResult
| EmptyResult
| ToolsListResult
| ToolCallResult (r : CallToolResult)
| ResourcesListResult
| ResourceContents (text : string)
| PromptsListResult.

Inductive RpcMessage : Type :=
| InvalidRequest
| MethodNotFound (method : jsvalue)
| UnknownTool (name : jsvalue)
| UnknownResource (uri : jsvalue)
| ParseError (error : string).

Record RpcError : Type := mkError { error_code : Z; message : RpcMessage }.

Inductive Response : Type :=
| JsonErrorResponse (message : string) (status : Z)
| JsonRpcResponse (id : jsvalue) (payload : RpcResult + RpcError).

Definition jsonError (message : string) (status : Z) : Response :=
  JsonErrorResponse message status.

(** jsonRpcResponse(id, result, error?) *)
Definition jsonRpcResponse (id : jsvalue) (result : RpcResult)
                           (error : option RpcError) : Response :=
  match error with
  | Some e => JsonRpcResponse id (inr e)
  | None => JsonRpcResponse id (inl result)
  end.

(** ** Module state and the monad of the handlers *)

(** An McpServer object: its identity ([ref], the rank of its
    construction) and the user its tool closures are bound to. *)
Record McpServer : Type := mkServer {
  ref : nat;
  bound_userId : string;
  bound_email : string
}.

Record World : Type := mkWorld {
  serverCache : LRU.LRUCache McpServer;
  constructed : nat;              (* McpServer objects built so far *)
  logged : list LogEvent;         (* events sent to the logger, oldest first *)
  ai_runs : list (json * json);   (* calls of env.AI.run: emotion, complexity *)
  clock_reads : nat               (* calls of Date.now() so far *)
}.

Definition MAX_CACHED_SERVERS : Z := 100.

(** The state when the module has been loaded:
    serverCache = new LRUCache(MAX_CACHED_SERVERS). *)
Definition initial_world : World :=
  {| serverCache := LRU.mkCache [] MAX_CACHED_SERVERS;
     constructed := 0; logged := []; ai_runs := []; clock_reads := 0 |}.

Definition M (A : Type) : Type := World -> completion A * World.

Definition ret {A : Type} (a : A) : M A := fun w => (Normal a, w).

Definition bind {A B : Type} (m : M A) (k : A -> M B) : M B :=
  fun w =>
    match m w with
    | (Normal a, w1) => k a w1
    | (Throw e, w1) => (Throw e, w1)
    end.

Definition await {A : Type} (c : completion A) : M A := fun w => (c, w).

(** try { m } catch (error) { handler error } *)
Definition try_catch {A : Type} (m : M A) (handler : string -> M A) : M A :=
  fun w =>
    match m w with
    | (Normal a, w1) => (Normal a, w1)
    | (Throw e, w1) => handler e w1
    end.

Notation "x <- m ;; k" := (bind m (fun x => k))
  (at level 61, m at next level, right associativity).
Notation "m ;;; k" := (bind m (fun _ => k))
  (at level 61, right associativity).

Definition logger (e : LogEvent) : M unit :=
  fun w =>
    (Normal tt,
     {| serverCache := serverCache w; constructed := constructed w;
        logged := logged w ++ [e]; ai_runs := ai_runs w;
        clock_reads := clock_reads w |}).

Section Server.

(** [Date.now()] at its n-th call, and [UI_RESOURCES.moodboard.uri]. *)
Variable clock : nat -> Z.
Variable moodboard_uri : string.

Definition Date_now : M Z :=
  fun w =>
    (Normal (clock (clock_reads w)),
     {| serverCache := serverCache w; constructed := constructed w;
        logged := logged w; ai_runs := ai_runs w;
        clock_reads := S (clock_reads w) |}).

(** serverCache.get(key): the clock is read on a hit only. *)
Definition serverCache_get (key : string) : M (option McpServer) :=
  fun w =>
    if LRU.has key (serverCache w)
    then
      let '(found, c) := LRU.get key (clock (clock_reads w)) (serverCache w) in
      (Normal found,
       {| serverCache := c; constructed := constructed w;
          logged := logged w; ai_runs := ai_runs w;
          clock_reads := S (clock_reads w) |})
    else (Normal None, w).

(** serverCache.set(key, server) *)
Definition serverCache_set (key : string) (server : McpServer) : M unit :=
  fun w =>
    let '(events, c) :=
      LRU.set key server (clock (clock_reads w)) (serverCache w) in
    (Normal tt,
     {| serverCache := c; constructed := constructed w;
        logged := logged w ++ events; ai_runs := ai_runs w;
        clock_reads := S (clock_reads w) |}).

(** new McpServer(...) followed by the registrations, which bind the
    closures to [userId] and [email]. *)
Definition new_McpServer (userId email : string) : M McpServer :=
  fun w =>
    (Normal {| ref := constructed w;
               bound_userId := userId; bound_email := email |},
     {| serverCache := serverCache w; constructed := S (constructed w);
        logged := logged w; ai_runs := ai_runs w;
        clock_reads := clock_reads w |}).

Definition getOrCreateServer (env : Env) (userId email : string)
  : M McpServer :=
  cached <- serverCache_get userId ;;
  match cached with
  | Some server => ret server
  | None =>
      server <- new_McpServer userId email ;;
      serverCache_set userId server ;;;
      ret server
  end.

(** env.AI.run(AI_MODEL, messages, options) *)
Definition ai_run (env : Env) (emotion complexity : json) : M AiResponse :=
  fun w =>
    (AI env emotion complexity,
     {| serverCache := serverCache w; constructed := constructed w;
        logged := logged w; ai_runs := ai_runs w ++ [(emotion, complexity)];
        clock_reads := clock_reads w |}).

(** The two prompts are built first: systemPrompt interpolates
    [${complexity}] and [${Math.floor(5 + complexity * 2)}], userPrompt
    [${emotion}], [${complexity}] and [${emotion}] again. What the
    model answers depends on the prompts through the emotion and the
    complexity they were built from. *)
Definition enhanceEmotionToThreeJS (env : Env) (emotion complexity : json)
  : M string :=
  await (to_string (Some complexity)) ;;;
  await (to_number complexity) ;;;
  await (to_string (Some emotion)) ;;;
  await (to_string (Some complexity)) ;;;
  await (to_string (Some emotion)) ;;;
  response <- ai_run env emotion complexity ;;
  let code := response_text response in
  ret (cleanupCode code).

Definition handleInitialize (request : JsonRpcRequest) : Response :=
  jsonRpcResponse (id request) InitializeResult None.

Definition handlePing (request : JsonRpcRequest) : Response :=
  jsonRpcResponse (id request) EmptyResult None.

Definition handleToolsList (request : JsonRpcRequest) : M Response :=
  ret (jsonRpcResponse (id request) ToolsListResult None).

(** [params || {}] *)
Definition params_or_empty (request : JsonRpcRequest) : json :=
  or_else (params request) (JObj []).

Definition handleToolsCall (request : JsonRpcRequest) (env : Env)
                           (userId userEmail : string) : M Response :=
  let name := property "name" (params_or_empty request) in
  let args := property "arguments" (params_or_empty request) in
  if is_string "generate_mood_scene" name then
    let emotion := or_else (optional_property "emotion" args) (JStr "") in
    let complexity := or_else (optional_property "complexity" args) (JNum 5) in
    let height := or_else (optional_property "height" args) (JNum 600) in
    startTime <- Date_now ;;
    try_catch
      (code <- enhanceEmotionToThreeJS env emotion complexity ;;
       endTime <- Date_now ;;
       logger (tool_completed "generate_mood_scene" userId userEmail
                              (endTime - startTime)) ;;;
       let result := {| code := code; emotion := emotion; height := height |} in
       ret (jsonRpcResponse (id request)
              (ToolCallResult {| content := StringifyResult result;
                                 structuredContent := Some result;
                                 isError := false |})
              None))
      (fun error =>
         logger (tool_failed "generate_mood_scene" error) ;;;
         ret (jsonRpcResponse (id request)
                (ToolCallResult {| content := ErrorText ("Error: " ++ error);
                                   structuredContent := None;
                                   isError := true |})
                None))
  else if is_string "learn_mood_primitives" name then
    let category := or_else (optional_property "category" args) (JStr "all") in
    await (to_string (Some category)) ;;;
    logger (tool_completed "learn_mood_primitives" userId userEmail 0) ;;;
    ret (jsonRpcResponse (id request)
           (ToolCallResult {| content := Documentation category;
                              structuredContent := None;
                              isError := false |})
           None)
  else
    await (to_string name) ;;;
    ret (jsonRpcResponse (id request) NullResult
           (Some {| error_code := -32602; message := UnknownTool name |})).

Definition handleResourcesList (request : JsonRpcRequest) : M Response :=
  ret (jsonRpcResponse (id request) ResourcesListResult None).

Definition handleResourcesRead (request : JsonRpcRequest) (env : Env)
  : M Response :=
  let uri := property "uri" (params_or_empty request) in
  if is_string moodboard_uri uri then
    html <- await (ASSETS env "/moodboard.html") ;;
    ret (jsonRpcResponse (id request) (ResourceContents html) None)
  else
    await (to_string uri) ;;;
    ret (jsonRpcResponse (id request) NullResult
           (Some {| error_code := -32602; message := UnknownResource uri |})).

Definition handlePromptsList (request : JsonRpcRequest) : M Response :=
  ret (jsonRpcResponse (id request) PromptsListResult None).

(** Reading the fields of what request.json() gave: a property read on
    [null] throws a TypeError. *)
Definition read_request (v : json) : completion JsonRpcRequest :=
  match v with
  | JNull => Throw "Cannot read properties of null (reading 'jsonrpc')"
  | _ => Normal {| jsonrpc := property "jsonrpc" v; id := property "id" v;
                   method := property "method" v;
                   params := property "params" v |}
  end.

Definition handleHTTPTransport (server : McpServer) (request : Request)
                               (env : Env) (userId userEmail : string)
  : M Response :=
  try_catch
    (parsed <- await (body request) ;;
     jsonRpcRequest <- await (read_request parsed) ;;
     if negb (is_string "2.0" (jsonrpc jsonRpcRequest)) then
       ret (jsonRpcResponse (id jsonRpcRequest) NullResult
              (Some {| error_code := -32600; message := InvalidRequest |}))
     else if is_string "initialize" (method jsonRpcRequest) then
       ret (handleInitialize jsonRpcRequest)
     else if is_string "ping" (method jsonRpcRequest) then
       ret (handlePing jsonRpcRequest)
     else if is_string "tools/list" (method jsonRpcRequest) then
       handleToolsList jsonRpcRequest
     else if is_string "tools/call" (method jsonRpcRequest) then
       handleToolsCall jsonRpcRequest env userId userEmail
     else if is_string "resources/list" (method jsonRpcRequest) then
       handleResourcesList jsonRpcRequest
     else if is_string "resources/read" (method jsonRpcRequest) then
       handleResourcesRead jsonRpcRequest env
     else if is_string "prompts/list" (method jsonRpcRequest) then
       handlePromptsList jsonRpcRequest
     else
       await (to_string (method jsonRpcRequest)) ;;;
       ret (jsonRpcResponse (id jsonRpcRequest) NullResult
              (Some {| error_code := -32601;
                       message := MethodNotFound (method jsonRpcRequest) |})))
    (fun error =>
       ret (jsonRpcResponse (Some (JStr "error")) NullResult
              (Some {| error_code := -32700; message := ParseError error |}))).

(** [!apiKey] *)
Definition missing (apiKey : option string) : bool :=
  match apiKey with
  | None => true
  | Some k => String.eqb k ""
  end.

Definition handleApiKeyRequest (request : Request) (env : Env)
                               (pathname : string) : M Response :=
  try_catch
    (let authHeader := authorization request in
     let apiKey := option_map (Str.remove_first "Bearer ") authHeader in
     match apiKey with
     | Some key =>
         if missing apiKey then ret (jsonError "Missing Authorization header" 401)
         else
           validationResult <- await (DB env key) ;;
           match validationResult with
           | None =>
               logger (auth_attempt None false) ;;;
               ret (jsonError "Invalid or expired API key" 401)
           | Some (userId, email) =>
               logger (auth_attempt (Some (userId, email)) true) ;;;
               server <- getOrCreateServer env userId email ;;
               if String.eqb pathname "/mcp"
               then handleHTTPTransport server request env userId email
               else ret (jsonError "Invalid endpoint. Use /mcp" 400)
           end
     | None => ret (jsonError "Missing Authorization header" 401)
     end)
    (fun error =>
       logger (server_error error "API key handler") ;;;
       ret (jsonError ("Internal server error: " ++ error) 500)).

End Server.

(** ** The input schema of generate_mood_scene and the OAuth-bound handler *)

Record GenerateMoodSceneInput : Type := mkInput {
  input_emotion : string;
  input_complexity : option Z;
  input_height : option Z
}.

(** An optional integer field within bounds: absent, or a number
    that [accept]s. *)
Definition optional_int (accept : Z -> bool) (v : jsvalue)
  : option (option Z) :=
  match v with
  | None => Some None
  | Some (JNum n) => if accept n then Some (Some n) else None
  | Some _ => None
  end.

(** The inputSchema registered for generate_mood_scene:
    emotion: z.string().min(1),
    complexity: z.number().int().min(1).max(10).optional(),
    height: z.number().int().positive().optional().
    [None] when the arguments do not parse. *)
Definition inputSchema (args : jsvalue) : option GenerateMoodSceneInput :=
  match args with
  | Some (JObj fields) =>
      match JsMap.get "emotion" fields with
      | Some (JStr e) =>
          if (1 <=? String.length e)%nat then
            match optional_int (fun n => (1 <=? n) && (n <=? 10))
                               (JsMap.get "complexity" fields),
                  optional_int (fun n => 0 <? n)
                               (JsMap.get "height" fields) with
            | Some c, Some h =>
                Some {| input_emotion := e; input_complexity := c;
                        input_height := h |}
            | _, _ => None
            end
          else None
      | _ => None
      end
  | _ => None
  end.

Definition default_to (d : Z) (v : option Z) : Z :=
  match v with Some n => n | None => d end.

(** The handler registered by Moodboard3DMCP.init; [props_userId] is
    [this.props?.userId]. *)
Definition generate_mood_scene (clock : nat -> Z)
    (props_userId props_email : option string) (env : Env)
    (args : GenerateMoodSceneInput) : M CallToolResult :=
  if missing props_userId
  then await (Throw "User ID not found in authentication context")
  else
    let emotion := input_emotion args in
    let complexity := default_to 5 (input_complexity args) in
    let height := default_to 600 (input_height args) in
    startTime <- Date_now clock ;;
    try_catch
      (code <- enhanceEmotionToThreeJS env (JStr emotion) (JNum complexity) ;;
       endTime <- Date_now clock ;;
       logger (tool_completed "generate_mood_scene"
                 (match props_userId with Some u => u | None => "" end)
                 (match props_email with Some e => e | None => "" end)
                 (endTime - startTime)) ;;;
       let result := {| code := code; emotion := JStr emotion;
                        height := JNum height |} in
       ret {| content := StringifyResult result;
              structuredContent := Some result;
              isError := false |})
      (fun error =>
         logger (tool_failed "generate_mood_scene" error) ;;;
         ret {| content := ErrorText ("Error generating mood scene: " ++ error);
                structuredContent := None;
                isError := true |}).

(** ** Envelopes *)

(** An envelope that is not well formed: the version marker is not the
    string "2.0" (or is missing), or there is no method name. *)
Definition malformed_envelope (v : json) : Prop :=
  is_string "2.0" (property "jsonrpc" v) = false \/
  property "method" v = undefined.

(** The values a handler may convert to a string, for the body [v],
    all convert: the method, the tool name, the uri and the category. *)
Definition envelope_converts (v : json) : Prop :=
  let params := or_else (property "params" v) (JObj []) in
  to_string (property "method" v) = Normal tt /\
  to_string (property "name" params) = Normal tt /\
  to_string (property "uri" params) = Normal tt /\
  to_string (Some (or_else (optional_property "category"
                              (property "arguments" params))
                           (JStr "all"))) = Normal tt.

(** The body of a JSON-RPC request. *)
Definition envelope (id method : json) (params : json) : json :=
  JObj [("jsonrpc", JStr "2.0"); ("id", id); ("method", method);
        ("params", params)].

(** A tools/call of generate_mood_scene. *)
Definition generate_call (id : json) (arguments : json) : json :=
  envelope id (JStr "tools/call")
    (JObj [("name", JStr "generate_mood_scene"); ("arguments", arguments)]).

(** ** Sample inputs *)

Module Sample.

(** A cache at its capacity of 2, entries last accessed at 5 and 3. *)
Definition at_capacity : LRU.LRUCache nat :=
  LRU.mkCache [("a", LRU.mkEntry 10%nat 5); ("b", LRU.mkEntry 20%nat 3)] 2.

(** Two entries share the least timestamp. *)
Definition tied : LRU.LRUCache nat :=
  LRU.mkCache [("a", LRU.mkEntry 10%nat 5); ("b", LRU.mkEntry 20%nat 3);
               ("c", LRU.mkEntry 30%nat 3)] 3.

(** A clock that stands still, as within one millisecond. *)
Definition frozen_clock : nat -> Z := fun _ => 1000.

Definition ticking_clock : nat -> Z := fun n => 1000 + Z.of_nat n.

Definition uri : string := "ui://moodboard".

(** The key "k1" belongs to user "u"; the model answers "X"; the asset
    loader works. *)
Definition env : Env :=
  {| AI := fun _ _ => Normal (AiString "X");
     AI_GATEWAY_ID := None;
     ASSETS := fun _ => Normal "<html></html>";
     DB := fun key =>
             Normal (if String.eqb key "k1" then Some ("u", "u@example.org")
                     else None) |}.

(** A request whose version marker is wrong. *)
Definition wrong_version : Request :=
  {| authorization := Some "Bearer k1";
     body := Normal (JObj [("jsonrpc", JStr "1.0"); ("id", JNum 1);
                           ("method", JStr "ping")]) |}.

Definition server : McpServer :=
  {| ref := 0; bound_userId := "u"; bound_email := "u@example.org" |}.

(** The world after user "u" was served once. *)
Definition warm_world : World :=
  {| serverCache := LRU.mkCache [("u", LRU.mkEntry server 1000)] MAX_CACHED_SERVERS;
     constructed := 1; logged := []; ai_runs := []; clock_reads := 1 |}.

End Sample.

(** ** Runs of the cache and of the entry point *)

(** A run of inserts: set(key, value) at the reading [now], one after
    the other. *)
Fixpoint insert_all (V : Type) (entries : list (string * V * Z))
                    (c : LRU.LRUCache V) : LRU.LRUCache V :=
  match entries with
  | [] => c
  | (key, v, now) :: rest => insert_all rest (snd (LRU.set key v now c))
  end.

(** The timestamps of the entries, in iteration order. *)
Definition stamps (V : Type) (c : LRU.LRUCache V) : list Z :=
  List.map (fun p => LRU.lastAccessed (snd p)) (LRU.cache c).

(** The last [n] elements of a list. *)
Definition last_n (A : Type) (n : nat) (l : list A) : list A :=
  skipn (List.length l - n) l.

(** Requests handled one after the other by handleApiKeyRequest, each
    with its pathname: the response and the world after each. *)
Fixpoint serve (clock : nat -> Z) (moodboard_uri : string) (env : Env)
               (calls : list (Request * string)) (w : World)
  : list (completion Response * World) :=
  match calls with
  | [] => []
  | (request, pathname) :: rest =>
      let r := handleApiKeyRequest clock moodboard_uri request env pathname w in
      r :: serve clock moodboard_uri env rest (snd r)
  end.

(** Every cached server is bound to the user id it is stored under. *)
Definition bound_to_key (c : LRU.LRUCache McpServer) : Prop :=
  forall key entry,
    In (key, entry) (LRU.cache c) -> bound_userId (LRU.value entry) = key.

(** The API key a request presents: the Authorization header without
    its first "Bearer ", when that is not empty. *)
Definition presented_key (request : Request) : option string :=
  match authorization request with
  | Some header =>
      if String.eqb (Str.remove_first "Bearer " header) "" then None
      else Some (Str.remove_first "Bearer " header)
  | None => None
  end.

(** The user a request authenticates as, if any. *)
Definition authenticated (env : Env) (request : Request)
  : option (string * string) :=
  match presented_key request with
  | Some key =>
      match DB env key with
      | Normal (Some user) => Some user
      | _ => None
      end
  | None => None
  end.

(** The method names the transport dispatches on. *)
Definition known_methods : list string :=
  ["initialize"; "ping"; "tools/list"; "tools/call"; "resources/list";
   "resources/read"; "prompts/list"].

(** ** Strings with no white space in front *)

Definition starts_clean (s : string) : Prop :=
  match s with
  | EmptyString => True
  | String c _ => Str.is_space c = false
  end.

(** ** The visualize-feeling prompt of the OAuth-bound server *)

Module Prompt.

Definition digit (c : ascii) : option Z :=
  let n := nat_of_ascii c in
  if ((48 <=? n) && (n <=? 57))%nat then Some (Z.of_nat (n - 48)) else None.

(** The value of the longest prefix of decimal digits, [acc] being what
    was read so far ([None] when no digit was). *)
Fixpoint digits (s : string) (acc : option Z) : option Z :=
  match s with
  | EmptyString => acc
  | String c rest =>
      match digit c with
      | Some d =>
          digits rest
            (Some (10 * (match acc with Some a => a | None => 0 end) + d))
      | None => acc
      end
  end.

(** parseInt(s, 10); [None] is NaN. *)
Definition parseInt (s : string) : option Z :=
  match Str.trimStart s with
  | String "-" rest => option_map Z.opp (digits rest None)
  | String "+" rest => digits rest None
  | trimmed => digits trimmed None
  end.

(** const complexityNum = complexity ? parseInt(complexity, 10) : 5;
    const validComplexity = Math.min(10, Math.max(1, complexityNum || 5)); *)
Definition validComplexity (complexity : option string) : Z :=
  let complexityNum :=
    match complexity with
    | Some s => if String.eqb s "" then Some 5 else parseInt s
    | None => Some 5
    end in
  let n :=
    match complexityNum with
    | Some n => if n =? 0 then 5 else n
    | None => 5
    end in
  Z.min 10 (Z.max 1 n).

End Prompt.

(** ** hasUISupport of ui-resources *)

Definition UI_MIME_TYPE : string := "text/html;profile=mcp-app".

Definition UI_EXTENSION_ID : string := "io.modelcontextprotocol/ui".

(** [v[name]] for a truthy [v]. *)
Definition truthy_property (name : string) (v : jsvalue) : jsvalue :=
  match v with
  | Some o => if truthy v then property name o else undefined
  | None => undefined
  end.

Definition hasUISupport (clientCapabilities : jsvalue) : bool :=
  match clientCapabilities with
  | Some (JObj _) | Some (JArr _) =>
      let extensions := truthy_property "extensions" clientCapabilities in
      if negb (truthy extensions) then false
      else
        let uiExtension := truthy_property UI_EXTENSION_ID extensions in
        if negb (truthy uiExtension) then false
        else
          match truthy_property "mimeTypes" uiExtension with
          | Some (JArr mimeTypes) =>
              existsb (fun item => is_string UI_MIME_TYPE (Some item)) mimeTypes
          | _ => false
          end
  | _ => false
  end.

(** * Properties *)

(** ** The association list behaves as a [Map] *)

Section JsMapFacts.
Variable V : Type.
Implicit Types (m : JsMap.t V) (key : string) (v : V).

Lemma has_true_get key m :
  JsMap.has key m = true -> exists v, JsMap.get key m = Some v.
Proof.
  unfold JsMap.has. destruct (JsMap.get key m) as [v|]; [eauto | discriminate].
Qed.

Lemma get_some_has key m v : JsMap.get key m = Some v -> JsMap.has key m = true.
Proof. unfold JsMap.has. now intros ->. Qed.

Lemma get_in key m v : JsMap.get key m = Some v -> In (key, v) m.
Proof.
  induction m as [|[k v'] rest IH]; simpl; [discriminate|].
  destruct (String.eqb_spec key k) as [->|Hne].
  - intros [= ->]. now left.
  - intros H. right. auto.
Qed.

Lemma get_none_not_in key m :
  JsMap.get key m = None -> ~ In key (JsMap.keys m).
Proof.
  induction m as [|[k v'] rest IH]; simpl; [tauto|].
  destruct (String.eqb_spec key k) as [->|Hne]; [discriminate|].
  intros H [Hk|Hk]; [congruence | now apply IH].
Qed.

Lemma in_keys_has key m : In key (JsMap.keys m) -> JsMap.has key m = true.
Proof.
  intros Hin. unfold JsMap.has. destruct (JsMap.get key m) eqn:E; [reflexivity|].
  now apply get_none_not_in in E.
Qed.

Lemma has_false_not_in key m :
  JsMap.has key m = false -> ~ In key (JsMap.keys m).
Proof.
  intros H Hin. apply in_keys_has in Hin. congruence.
Qed.

Lemma length_set key v m :
  List.length (JsMap.set key v m) =
  if JsMap.has key m then List.length m else S (List.length m).
Proof.
  unfold JsMap.has. induction m as [|[k v'] rest IH]; simpl; [reflexivity|].
  destruct (String.eqb key k); simpl; [reflexivity|].
  rewrite IH. now destruct (JsMap.get key rest).
Qed.

Lemma size_set key v m :
  JsMap.size (JsMap.set key v m) =
  if JsMap.has key m then JsMap.size m else JsMap.size m + 1.
Proof.
  unfold JsMap.size. rewrite length_set. destruct (JsMap.has key m); lia.
Qed.

Lemma keys_set_present key v m :
  JsMap.has key m = true -> JsMap.keys (JsMap.set key v m) = JsMap.keys m.
Proof.
  unfold JsMap.has. induction m as [|[k v'] rest IH]; simpl; [discriminate|].
  destruct (String.eqb_spec key k) as [->|]; simpl; [reflexivity|].
  intros H. now rewrite IH.
Qed.

Lemma keys_set_absent key v m :
  JsMap.has key m = false -> JsMap.keys (JsMap.set key v m) = JsMap.keys m ++ [key].
Proof.
  unfold JsMap.has. induction m as [|[k v'] rest IH]; simpl; [reflexivity|].
  destruct (String.eqb key k); simpl; [discriminate|].
  intros H. now rewrite IH.
Qed.

Lemma get_set_same key v m : JsMap.get key (JsMap.set key v m) = Some v.
Proof.
  induction m as [|[k v'] rest IH]; simpl.
  - now rewrite String.eqb_refl.
  - destruct (String.eqb key k) eqn:E; simpl; rewrite E; auto.
Qed.

Lemma get_set_other key k' v m :
  k' <> key -> JsMap.get k' (JsMap.set key v m) = JsMap.get k' m.
Proof.
  intros Hne. induction m as [|[k v'] rest IH]; simpl.
  - destruct (String.eqb_spec k' key); [contradiction | reflexivity].
  - destruct (String.eqb_spec key k) as [->|Hk]; simpl.
    + destruct (String.eqb_spec k' k); [contradiction | reflexivity].
    + destruct (String.eqb k' k); auto.
Qed.

Lemma length_delete key m :
  JsMap.has key m = true ->
  S (List.length (JsMap.delete key m)) = List.length m.
Proof.
  unfold JsMap.has. induction m as [|[k v'] rest IH]; simpl; [discriminate|].
  destruct (String.eqb key k); simpl; [reflexivity|].
  intros H. now rewrite IH.
Qed.

Lemma get_delete_other key k' m :
  k' <> key -> JsMap.get k' (JsMap.delete key m) = JsMap.get k' m.
Proof.
  intros Hne. induction m as [|[k v'] rest IH]; simpl; [reflexivity|].
  destruct (String.eqb_spec key k) as [->|Hk]; simpl.
  - destruct (String.eqb_spec k' k); [contradiction | reflexivity].
  - destruct (String.eqb k' k); auto.
Qed.

Lemma get_delete_same key m :
  JsMap.wf m -> JsMap.get key (JsMap.delete key m) = None.
Proof.
  unfold JsMap.wf. induction m as [|[k v'] rest IH]; simpl; [reflexivity|].
  intros Hnd. inversion Hnd as [|? ? Hnotin Hnd']; subst.
  destruct (String.eqb_spec key k) as [->|Hk]; simpl.
  - destruct (JsMap.get k rest) eqn:E; [|reflexivity].
    apply get_in in E. exfalso. apply Hnotin.
    change k with (fst (k, v)). now apply in_map.
  - destruct (String.eqb_spec key k); [contradiction | auto].
Qed.

Lemma delete_split key l1 v l2 :
  ~ In key (JsMap.keys l1) ->
  JsMap.delete key (l1 ++ (key, v) :: l2) = l1 ++ l2.
Proof.
  induction l1 as [|[k v'] l1 IH]; simpl.
  - now rewrite String.eqb_refl.
  - intros Hn. destruct (String.eqb_spec key k) as [->|Hk].
    + exfalso. apply Hn. now left.
    + f_equal. apply IH. tauto.
Qed.

Lemma wf_split_not_in key l1 v l2 :
  JsMap.wf (l1 ++ (key, v) :: l2) -> ~ In key (JsMap.keys l1).
Proof.
  unfold JsMap.wf, JsMap.keys. rewrite map_app. simpl.
  intros Hnd Hin. apply NoDup_remove_2 in Hnd. apply Hnd.
  apply in_or_app. now left.
Qed.

Lemma keys_delete_incl key m x :
  In x (JsMap.keys (JsMap.delete key m)) -> In x (JsMap.keys m).
Proof.
  induction m as [|[k v'] rest IH]; simpl; [tauto|].
  destruct (String.eqb key k); simpl; tauto.
Qed.

Lemma wf_delete key m : JsMap.wf m -> JsMap.wf (JsMap.delete key m).
Proof.
  unfold JsMap.wf. induction m as [|[k v'] rest IH]; simpl; [auto|].
  intros Hnd. inversion Hnd as [|? ? Hnotin Hnd']; subst.
  destruct (String.eqb key k); simpl; [assumption|].
  constructor; [|auto]. intros Hin. apply Hnotin.
  now apply keys_delete_incl in Hin.
Qed.

Lemma wf_set key v m : JsMap.wf m -> JsMap.wf (JsMap.set key v m).
Proof.
  unfold JsMap.wf. intros Hnd. destruct (JsMap.has key m) eqn:Hhas.
  - now rewrite keys_set_present.
  - rewrite keys_set_absent by assumption.
    apply NoDup_app; [assumption | repeat constructor; simpl; tauto |].
    intros x Hx [<-|[]]. now apply has_false_not_in in Hhas.
Qed.

End JsMapFacts.

(** ** The cache *)

Section LRUFacts.
Variable V : Type.
Implicit Types (c : LRU.LRUCache V) (key : string) (v : V) (now : Z).

Local Abbreviation stamp := (fun p : string * LRU.Entry V => LRU.lastAccessed (snd p)) (only parsing).

(** What the loop of evictLRU leaves in [oldestKey] and [oldestTime]:
    either no entry was below the starting time, or the candidate is
    the first entry to reach the least timestamp. *)
Lemma scan_spec (entries : JsMap.t (LRU.Entry V)) :
  forall oldestKey oldestTime k t,
    LRU.scan entries oldestKey oldestTime = (k, t) ->
    (k = oldestKey /\ t = oldestTime /\
     Forall (fun p => LRU.lt (stamp p) oldestTime = false) entries)
    \/
    (exists l1 key e l2,
        entries = l1 ++ (key, e) :: l2 /\ k = Some key /\
        t = LRU.Finite (LRU.lastAccessed e) /\
        LRU.lt (LRU.lastAccessed e) oldestTime = true /\
        Forall (fun p => LRU.lastAccessed e < stamp p) l1 /\
        Forall (fun p => LRU.lastAccessed e <= stamp p) l2).
Proof.
  induction entries as [|[key0 e0] rest IH]; intros oldestKey oldestTime k t; simpl.
  - intros [= <- <-]. left. repeat split. constructor.
  - destruct (LRU.lt (LRU.lastAccessed e0) oldestTime) eqn:Hlt; intros Hscan;
      apply IH in Hscan as [(-> & -> & Hall) | (l1 & key & e & l2 & -> & -> & -> & Hlt' & H1 & H2)].
    + right. exists [], key0, e0, rest. repeat split; auto.
      eapply Forall_impl; [|exact Hall]. intros p Hp. simpl in Hp.
      apply Z.ltb_ge in Hp. exact Hp.
    + right. exists ((key0, e0) :: l1), key, e, l2. simpl in Hlt'.
      apply Z.ltb_lt in Hlt'.
      assert (LRU.lt (LRU.lastAccessed e) oldestTime = true).
      { destruct oldestTime as [z|]; simpl in *; [|reflexivity].
        apply Z.ltb_lt in Hlt. apply Z.ltb_lt. lia. }
      repeat split; auto.
    + left. repeat split. constructor; auto.
    + right. exists ((key0, e0) :: l1), key, e, l2. repeat split; auto.
      constructor; auto. simpl.
      destruct oldestTime as [z|]; simpl in *; [|discriminate].
      apply Z.ltb_ge in Hlt. apply Z.ltb_lt in Hlt'. lia.
Qed.

(** The key evictLRU picks: none on an empty map, otherwise the first
    entry, in iteration order, whose timestamp is the least. *)
Lemma oldest_spec c :
  (LRU.cache c = [] /\ LRU.oldest c = None)
  \/
  (exists l1 key e l2,
      LRU.cache c = l1 ++ (key, e) :: l2 /\ LRU.oldest c = Some key /\
      Forall (fun p => LRU.lastAccessed e < stamp p) l1 /\
      Forall (fun p => LRU.lastAccessed e <= stamp p) l2).
Proof.
  unfold LRU.oldest.
  destruct (LRU.scan (LRU.cache c) None LRU.Infinity) as [k t] eqn:Hscan.
  apply scan_spec in Hscan as [(-> & -> & Hall) | (l1 & key & e & l2 & Hc & -> & -> & _ & H1 & H2)].
  - left. split; [|reflexivity].
    destruct (LRU.cache c) as [|p rest]; [reflexivity|].
    inversion Hall as [|? ? Hp _]; subst. discriminate Hp.
  - right. exists l1, key, e, l2. auto.
Qed.

Lemma oldest_present c k : LRU.oldest c = Some k -> LRU.has k c = true.
Proof.
  intros Hk. destruct (oldest_spec c) as [[_ Hn] | (l1 & key & e & l2 & Hc & Ho & _)];
    [congruence|].
  assert (key = k) as -> by congruence.
  apply in_keys_has. unfold JsMap.keys. rewrite Hc, map_app. simpl.
  apply in_or_app. right. now left.
Qed.

Lemma oldest_none_empty c : LRU.oldest c = None -> LRU.cache c = [].
Proof.
  intros Hn. destruct (oldest_spec c) as [[He _] | (l1 & key & e & l2 & _ & Ho & _)];
    [assumption | congruence].
Qed.

(** Under one binding per key, the oldest key is bound to an entry
    whose timestamp no entry is below. *)
Lemma oldest_minimal c k :
  JsMap.wf (LRU.cache c) -> LRU.oldest c = Some k ->
  exists e, JsMap.get k (LRU.cache c) = Some e /\
            forall k' e', In (k', e') (LRU.cache c) ->
                          LRU.lastAccessed e <= LRU.lastAccessed e'.
Proof.
  intros Hwf Hk.
  destruct (oldest_spec c) as [[_ Hn] | (l1 & key & e & l2 & Hc & Ho & H1 & H2)];
    [congruence|].
  assert (key = k) as -> by congruence.
  exists e. split.
  - rewrite Hc in Hwf |- *. apply wf_split_not_in in Hwf.
    clear - Hwf. induction l1 as [|[k1 e1] l1 IH]; simpl.
    + now rewrite String.eqb_refl.
    + simpl in Hwf. destruct (String.eqb_spec k k1) as [->|]; [tauto|].
      apply IH. tauto.
  - intros k' e' Hin. rewrite Hc in Hin. apply in_app_or in Hin as [Hin|[Hin|Hin]].
    + rewrite Forall_forall in H1. specialize (H1 _ Hin). simpl in H1. lia.
    + inversion Hin; subst. lia.
    + rewrite Forall_forall in H2. now specialize (H2 _ Hin).
Qed.

Lemma evictLRU_unfold c :
  LRU.evictLRU c =
  match LRU.oldest c with
  | Some k => ([lru_cache_eviction k (LRU.size c)],
               LRU.mkCache (JsMap.delete k (LRU.cache c)) (LRU.maxSize c))
  | None => ([], c)
  end.
Proof. reflexivity. Qed.

(** set on a present key: no eviction, the map is updated in place. *)
Lemma set_present c key v now :
  LRU.has key c = true ->
  LRU.set key v now c =
  ([], LRU.mkCache (JsMap.set key (LRU.mkEntry v now) (LRU.cache c)) (LRU.maxSize c)).
Proof.
  unfold LRU.has, LRU.set. intros ->. simpl. now rewrite andb_false_r.
Qed.

(** set on an absent key below capacity: no eviction either. *)
Lemma set_room c key v now :
  LRU.size c < LRU.maxSize c ->
  LRU.set key v now c =
  ([], LRU.mkCache (JsMap.set key (LRU.mkEntry v now) (LRU.cache c)) (LRU.maxSize c)).
Proof.
  unfold LRU.set. intros Hlt.
  destruct (Z.leb_spec (LRU.maxSize c) (LRU.size c)); [lia | reflexivity].
Qed.

(** set on an absent key at capacity: evictLRU runs first. *)
Lemma set_full c key v now :
  LRU.has key c = false -> LRU.maxSize c <= LRU.size c ->
  LRU.set key v now c =
  (fst (LRU.evictLRU c),
   LRU.mkCache (JsMap.set key (LRU.mkEntry v now) (LRU.cache (snd (LRU.evictLRU c))))
               (LRU.maxSize c)).
Proof.
  unfold LRU.has, LRU.set. intros -> Hle.
  destruct (Z.leb_spec (LRU.maxSize c) (LRU.size c)); [|lia]. simpl.
  rewrite evictLRU_unfold. now destruct (LRU.oldest c).
Qed.

Lemma maxSize_set c key v now :
  LRU.maxSize (snd (LRU.set key v now c)) = LRU.maxSize c.
Proof.
  unfold LRU.set.
  destruct ((LRU.maxSize c <=? LRU.size c) && negb (JsMap.has key (LRU.cache c)));
    [|reflexivity].
  rewrite evictLRU_unfold. now destruct (LRU.oldest c).
Qed.

Lemma get_hit c key e now :
  JsMap.get key (LRU.cache c) = Some e ->
  LRU.get key now c =
  (Some (LRU.value e),
   LRU.mkCache (JsMap.set key (LRU.mkEntry (LRU.value e) now) (LRU.cache c))
               (LRU.maxSize c)).
Proof. unfold LRU.get. now intros ->. Qed.

Lemma get_miss c key now :
  JsMap.get key (LRU.cache c) = None -> LRU.get key now c = (None, c).
Proof. unfold LRU.get. now intros ->. Qed.

Lemma size_get c key now : LRU.size (snd (LRU.get key now c)) = LRU.size c.
Proof.
  unfold LRU.get. destruct (JsMap.get key (LRU.cache c)) as [e|] eqn:E; [|reflexivity].
  unfold LRU.size. simpl. rewrite size_set.
  now rewrite (get_some_has _ _ E).
Qed.

Lemma maxSize_get c key now :
  LRU.maxSize (snd (LRU.get key now c)) = LRU.maxSize c.
Proof.
  unfold LRU.get. now destruct (JsMap.get key (LRU.cache c)).
Qed.

(** The capacity bound is kept by set, for a positive capacity. *)
Lemma size_set_bounded c key v now :
  0 < LRU.maxSize c -> LRU.size c <= LRU.maxSize c ->
  LRU.size (snd (LRU.set key v now c)) <= LRU.maxSize c.
Proof.
  intros Hpos Hle.
  destruct (LRU.has key c) eqn:Hhas.
  - rewrite set_present by assumption. unfold LRU.size. simpl.
    rewrite size_set. unfold LRU.has in Hhas. now rewrite Hhas.
  - destruct (Z.lt_ge_cases (LRU.size c) (LRU.maxSize c)) as [Hlt|Hge].
    + rewrite set_room by assumption. unfold LRU.size in *. simpl.
      rewrite size_set. unfold LRU.has in Hhas. rewrite Hhas. lia.
    + rewrite set_full by assumption. rewrite evictLRU_unfold.
      destruct (LRU.oldest c) as [k|] eqn:Ho.
      * unfold LRU.size in *. simpl. rewrite size_set.
        pose proof (oldest_present _ Ho) as Hk. unfold LRU.has in Hk.
        pose proof (length_delete _ _ Hk) as Hlen.
        destruct (JsMap.has key (JsMap.delete k (LRU.cache c)));
          unfold JsMap.size in *; lia.
      * apply oldest_none_empty in Ho. unfold LRU.size, JsMap.size in *.
        rewrite Ho in Hge. simpl in Hge. lia.
Qed.

Lemma step_bounded (o : LRU.Op V) c :
  0 < LRU.maxSize c -> LRU.size c <= LRU.maxSize c ->
  LRU.maxSize (LRU.step o c) = LRU.maxSize c /\
  LRU.size (LRU.step o c) <= LRU.maxSize c.
Proof.
  intros Hpos Hle. destruct o as [key now | key v now | key]; simpl.
  - rewrite maxSize_get, size_get. auto.
  - rewrite maxSize_set. auto using size_set_bounded.
  - auto.
Qed.

Lemma states_bounded (ops : list (LRU.Op V)) :
  forall c, 0 < LRU.maxSize c -> LRU.size c <= LRU.maxSize c ->
            Forall (fun c' => LRU.size c' <= LRU.maxSize c) (LRU.states ops c).
Proof.
  induction ops as [|o ops IH]; intros c Hpos Hle; simpl; [constructor|].
  destruct (step_bounded o c Hpos Hle) as [Hm Hs].
  constructor; [assumption|].
  rewrite <- Hm. apply IH; rewrite Hm; assumption.
Qed.

(** One binding per key is kept by every operation, so it holds of
    every cache reached from the constructor. *)
Lemma wf_step (o : LRU.Op V) c :
  JsMap.wf (LRU.cache c) -> JsMap.wf (LRU.cache (LRU.step o c)).
Proof.
  intros Hwf. destruct o as [key now | key v now | key]; simpl; [| |assumption].
  - unfold LRU.get. destruct (JsMap.get key (LRU.cache c)); simpl;
      [now apply wf_set | assumption].
  - unfold LRU.set.
    destruct ((LRU.maxSize c <=? LRU.size c) && negb (JsMap.has key (LRU.cache c)));
      [rewrite evictLRU_unfold; destruct (LRU.oldest c)|]; simpl;
      apply wf_set; auto using wf_delete.
Qed.

Lemma wf_states (ops : list (LRU.Op V)) :
  forall c, JsMap.wf (LRU.cache c) ->
            Forall (fun c' => JsMap.wf (LRU.cache c')) (LRU.states ops c).
Proof.
  induction ops as [|o ops IH]; intros c Hwf; simpl; constructor;
    auto using wf_step.
Qed.

Lemma get_twice c key e t1 t2 :
  JsMap.get key (LRU.cache c) = Some e ->
  let r1 := LRU.get key t1 c in
  let r2 := LRU.get key t2 (snd r1) in
  fst r1 = Some (LRU.value e) /\ fst r2 = Some (LRU.value e) /\
  JsMap.keys (LRU.cache (snd r2)) = JsMap.keys (LRU.cache c) /\
  LRU.size (snd r2) = LRU.size c /\
  (forall k', k' <> key ->
     JsMap.get k' (LRU.cache (snd r2)) = JsMap.get k' (LRU.cache c)).
Proof.
  intros He. cbv zeta. rewrite (get_hit _ _ t1 He). simpl.
  erewrite get_hit by apply get_set_same. simpl.
  pose proof (get_some_has _ _ He) as Hhas.
  assert (Hhas1 : JsMap.has key (JsMap.set key (LRU.mkEntry (LRU.value e) t1) (LRU.cache c)) = true)
    by (eapply get_some_has, get_set_same).
  repeat split.
  - now rewrite !keys_set_present.
  - unfold LRU.size. simpl. rewrite !size_set, Hhas1, Hhas. reflexivity.
  - intros k' Hne. now rewrite !get_set_other.
Qed.

End LRUFacts.

(** ** Eviction, capacity and overwriting *)

Lemma touch_scenario_unfold (V : Type) (u1 u2 u3 : string) (v1 v2 v3 : V)
                            (t1 t2 t3 t4 : Z) :
  u1 <> u2 -> u1 <> u3 -> u2 <> u3 ->
  LRU.evicted (LRU.touch_scenario 2 u1 u2 u3 v1 v2 v3 t1 t2 t3 t4) =
  if t2 <? t3 then [u2] else [u1].
Proof.
  intros H12 H13 H23.
  assert (E21 : String.eqb u2 u1 = false) by (apply String.eqb_neq; congruence).
  assert (E31 : String.eqb u3 u1 = false) by (apply String.eqb_neq; congruence).
  assert (E32 : String.eqb u3 u2 = false) by (apply String.eqb_neq; congruence).
  unfold LRU.touch_scenario, LRU.constructor, LRU.set, LRU.get, LRU.size,
    JsMap.size, JsMap.has.
  simpl. rewrite E21. simpl. rewrite String.eqb_refl. simpl.
  rewrite E31, E32. simpl.
  unfold LRU.evictLRU, LRU.oldest. simpl.
  destruct (t2 <? t3); reflexivity.
Qed.

(** C1, amended. When [set] inserts a new key into a cache that is at
    capacity, every key it evicts is bound to an entry whose
    [lastAccessed] no current entry is below, and the key is gone
    afterwards; a cache that is not empty loses exactly one key, and
    has as many entries afterwards as before; every other key keeps
    its entry as it was, and the new key is bound to the new value
    with the clock reading of the insertion. In the scenario of
    capacity 2 with set(u1), set(u2), get(u1), set(u3), the evicted key
    is u2 provided the clock reading taken by get(u1) is later than the
    one stored with u2. *)
Theorem C1_evicts_minimal_lastAccessed
  (V : Type) (c : LRU.LRUCache V) (key : string) (v : V) (now : Z)
  (u1 u2 u3 : string) (v1 v2 v3 : V) (t1 t2 t3 t4 : Z)
  (Hwf : JsMap.wf (LRU.cache c))
  (Hnew : LRU.has key c = false)
  (Hfull : LRU.maxSize c <= LRU.size c)
  (Hdistinct : u1 <> u2 /\ u1 <> u3 /\ u2 <> u3)
  (Hclock : t2 < t3) :
  (forall k, In k (LRU.evicted (fst (LRU.set key v now c))) ->
     exists e, JsMap.get k (LRU.cache c) = Some e /\
       (forall k' e', In (k', e') (LRU.cache c) ->
                      LRU.lastAccessed e <= LRU.lastAccessed e') /\
       LRU.has k (snd (LRU.set key v now c)) = false) /\
  (LRU.cache c <> [] ->
     exists k, LRU.evicted (fst (LRU.set key v now c)) = [k]) /\
  (forall k', k' <> key ->
     ~ In k' (LRU.evicted (fst (LRU.set key v now c))) ->
     JsMap.get k' (LRU.cache (snd (LRU.set key v now c)))
     = JsMap.get k' (LRU.cache c)) /\
  JsMap.get key (LRU.cache (snd (LRU.set key v now c)))
  = Some (LRU.mkEntry v now) /\
  (LRU.cache c <> [] -> LRU.size (snd (LRU.set key v now c)) = LRU.size c) /\
  LRU.evicted (LRU.touch_scenario 2 u1 u2 u3 v1 v2 v3 t1 t2 t3 t4) = [u2].
Proof.
  assert (Hscenario :
            LRU.evicted (LRU.touch_scenario 2 u1 u2 u3 v1 v2 v3 t1 t2 t3 t4)
            = [u2]).
  { destruct Hdistinct as (H12 & H13 & H23).
    rewrite touch_scenario_unfold by assumption.
    destruct (Z.ltb_spec t2 t3); [reflexivity | lia]. }
  rewrite set_full by assumption. rewrite evictLRU_unfold.
  destruct (LRU.oldest c) as [k0|] eqn:Ho; simpl.
  - assert (Hk0 : k0 <> key).
    { intros ->. apply oldest_present in Ho. congruence. }
    repeat split.
    + intros k [<-|[]].
      destruct (oldest_minimal c Hwf Ho) as (e & Hget & Hmin).
      exists e. repeat split; auto.
      unfold LRU.has. simpl.
      unfold JsMap.has. rewrite get_set_other by assumption.
      now rewrite get_delete_same.
    + eauto.
    + intros k' Hne Hkept.
      rewrite get_set_other by assumption.
      apply get_delete_other. intros ->. apply Hkept. now left.
    + apply get_set_same.
    + intros _. unfold LRU.size. simpl. rewrite size_set.
      unfold JsMap.has. rewrite get_delete_other by congruence.
      unfold LRU.has, JsMap.has in Hnew.
      destruct (JsMap.get key (LRU.cache c)); [discriminate|].
      unfold JsMap.size.
      rewrite <- (length_delete k0 (LRU.cache c)) by now apply oldest_present.
      lia.
    + exact Hscenario.
  - repeat split.
    + intros k [].
    + intros Hne. apply oldest_none_empty in Ho. contradiction.
    + intros k' Hne _. now apply get_set_other.
    + apply get_set_same.
    + intros Hne. apply oldest_none_empty in Ho. contradiction.
    + exact Hscenario.
Qed.

(** Without the condition on the clock the scenario ends otherwise:
    when Date.now() gives the same reading to set(u2) and to get(u1),
    the scan keeps its first candidate and u1 is evicted. *)
Lemma C1_counterexample :
  LRU.evicted (LRU.touch_scenario 2 "u1" "u2" "u3" tt tt tt 1000 1000 1000 1000)
  = ["u1"] /\
  LRU.evicted (LRU.touch_scenario 2 "u1" "u2" "u3" tt tt tt 1000 1000 1000 1000)
  <> ["u2"].
Proof. split; [reflexivity | discriminate]. Qed.

(** C2. From a cache constructed with a positive capacity, after each
    operation of any sequence of get, set and has the number of entries
    is at most the capacity. *)
Theorem C2_size_within_capacity
  (V : Type) (capacity : Z) (c0 : LRU.LRUCache V) (ops : list (LRU.Op V))
  (Hpositive : 0 < capacity)
  (Hconstructed : LRU.constructor capacity = Normal c0) :
  Forall (fun c => LRU.size c <= capacity) (LRU.states ops c0).
Proof.
  injection Hconstructed as <-.
  apply (states_bounded ops (LRU.mkCache [] capacity)); simpl; [assumption|].
  unfold LRU.size, JsMap.size. simpl. lia.
Qed.

(** C5, amended. The constructor checks nothing: for every capacity,
    positive or not, it returns an empty cache holding that capacity,
    and the cache takes an entry and gives it back. *)
Theorem C5_constructor_accepts_any_capacity
  (V : Type) (capacity : Z) (key : string) (v : V) (t1 t2 : Z) :
  exists c, LRU.constructor capacity = Normal c /\
            LRU.cache c = [] /\ LRU.maxSize c = capacity /\
            fst (LRU.get key t2 (snd (LRU.set key v t1 c))) = Some v.
Proof.
  eexists. split; [reflexivity|]. repeat split.
  unfold LRU.set, LRU.size, JsMap.size. simpl.
  destruct (capacity <=? 0); simpl; unfold LRU.get; simpl;
    now rewrite String.eqb_refl.
Qed.

(** Construction with capacity 0 does not fail, and the cache it
    returns is usable. *)
Lemma C5_counterexample :
  LRU.constructor (V := unit) 0 = Normal (LRU.mkCache [] 0) /\
  (forall error, LRU.constructor (V := unit) 0 <> Throw error) /\
  fst (LRU.get "u" 2 (snd (LRU.set "u" tt 1 (LRU.mkCache [] 0)))) = Some tt.
Proof. repeat split. intros error. discriminate. Qed.

(** C6. set on a key already present logs no eviction, binds the key to
    the new instance with the new timestamp, and leaves the keys, their
    order, the size and every other binding as they were; this holds
    whatever the size, at capacity too. *)
Theorem C6_set_present_never_evicts
  (V : Type) (c : LRU.LRUCache V) (key : string) (v : V) (now : Z)
  (Hpresent : LRU.has key c = true) :
  fst (LRU.set key v now c) = [] /\
  JsMap.get key (LRU.cache (snd (LRU.set key v now c)))
    = Some (LRU.mkEntry v now) /\
  JsMap.keys (LRU.cache (snd (LRU.set key v now c))) = JsMap.keys (LRU.cache c) /\
  LRU.size (snd (LRU.set key v now c)) = LRU.size c /\
  (forall k', k' <> key ->
     JsMap.get k' (LRU.cache (snd (LRU.set key v now c)))
     = JsMap.get k' (LRU.cache c)).
Proof.
  rewrite set_present by assumption. simpl. unfold LRU.has in Hpresent.
  repeat split.
  - apply get_set_same.
  - now apply keys_set_present.
  - unfold LRU.size. simpl. now rewrite size_set, Hpresent.
  - intros k' Hne. now apply get_set_other.
Qed.

(** C10. evictLRU removes nothing from an empty cache; from any other
    cache it removes the first entry, in iteration order, whose
    timestamp is the least: every entry before it has a strictly later
    timestamp, every entry after it a timestamp at least as late. *)
Theorem C10_first_minimal_entry_evicted
  (V : Type) (c : LRU.LRUCache V)
  (Hwf : JsMap.wf (LRU.cache c)) :
  (LRU.cache c = [] -> LRU.evictLRU c = ([], c)) /\
  (LRU.cache c <> [] ->
   exists l1 k e l2,
     LRU.cache c = l1 ++ (k, e) :: l2 /\
     Forall (fun p => LRU.lastAccessed e < LRU.lastAccessed (snd p)) l1 /\
     Forall (fun p => LRU.lastAccessed e <= LRU.lastAccessed (snd p)) l2 /\
     LRU.evictLRU c =
     ([lru_cache_eviction k (LRU.size c)],
      LRU.mkCache (l1 ++ l2) (LRU.maxSize c))).
Proof.
  rewrite evictLRU_unfold.
  destruct (oldest_spec c) as [[He Ho] | (l1 & k & e & l2 & Hc & Ho & H1 & H2)];
    rewrite Ho; split; try congruence.
  - intros He. rewrite Hc in He. now destruct l1.
  - intros _. exists l1, k, e, l2. repeat split; auto.
    rewrite Hc in Hwf. apply wf_split_not_in in Hwf.
    f_equal. f_equal. rewrite Hc. now apply delete_split.
Qed.

(** ** Sample caches *)

Lemma wf_at_capacity : JsMap.wf (LRU.cache Sample.at_capacity).
Proof.
  unfold JsMap.wf. simpl. repeat constructor; simpl; intuition discriminate.
Qed.

Lemma wf_tied : JsMap.wf (LRU.cache Sample.tied).
Proof.
  unfold JsMap.wf. simpl. repeat constructor; simpl; intuition discriminate.
Qed.

Lemma C1_witness :
  let after := snd (LRU.set "c" 30%nat 9 Sample.at_capacity) in
  LRU.evicted (fst (LRU.set "c" 30%nat 9 Sample.at_capacity)) = ["b"] /\
  JsMap.get "a" (LRU.cache after) = JsMap.get "a" (LRU.cache Sample.at_capacity) /\
  JsMap.get "c" (LRU.cache after) = Some (LRU.mkEntry 30%nat 9) /\
  LRU.size after = LRU.size Sample.at_capacity /\
  LRU.evicted (LRU.touch_scenario 2 "u1" "u2" "u3" 1%nat 2%nat 3%nat 1 2 3 4)
  = ["u2"].
Proof.
  assert (Hdistinct : "u1" <> "u2" /\ "u1" <> "u3" /\ "u2" <> "u3")
    by (repeat split; discriminate).
  assert (Hclock : 2 < 3) by lia.
  assert (Hfull : LRU.maxSize Sample.at_capacity <= LRU.size Sample.at_capacity)
    by (vm_compute; discriminate).
  assert (Hother : "a" <> "c") by discriminate.
  assert (Hkept : ~ In "a" (LRU.evicted
                              (fst (LRU.set "c" 30%nat 9 Sample.at_capacity)))).
  { intros [H|[]]. discriminate H. }
  assert (Hnonempty : LRU.cache Sample.at_capacity <> []) by discriminate.
  destruct (@C1_evicts_minimal_lastAccessed
              nat Sample.at_capacity "c" 30%nat 9 "u1" "u2" "u3" 1%nat 2%nat 3%nat
              1 2 3 4 wf_at_capacity eq_refl Hfull Hdistinct Hclock)
    as (_ & _ & Hothers & Hbound & Hsize & Hscenario).
  exact (conj eq_refl
           (conj (Hothers "a" Hother Hkept)
              (conj Hbound (conj (Hsize Hnonempty) Hscenario)))).
Defined.

Lemma C2_witness :
  Forall (fun c => LRU.size c <= 1)
         (LRU.states [LRU.OpSet "u1" 1%nat 10; LRU.OpGet "u1" 11;
                      LRU.OpSet "u2" 2%nat 12; LRU.OpHas "u1"]
                     (LRU.mkCache [] 1)).
Proof.
  apply (@C2_size_within_capacity nat 1); [lia | reflexivity].
Defined.

Lemma C6_witness :
  LRU.size Sample.at_capacity = LRU.maxSize Sample.at_capacity /\
  fst (LRU.set "a" 11%nat 9 Sample.at_capacity) = [] /\
  JsMap.get "a" (LRU.cache (snd (LRU.set "a" 11%nat 9 Sample.at_capacity)))
  = Some (LRU.mkEntry 11%nat 9) /\
  LRU.size (snd (LRU.set "a" 11%nat 9 Sample.at_capacity)) = 2.
Proof.
  destruct (@C6_set_present_never_evicts nat Sample.at_capacity "a" 11%nat 9
              eq_refl)
    as (Hevents & Hget & _ & Hsize & _).
  split; [reflexivity | exact (conj Hevents (conj Hget Hsize))].
Defined.

Lemma C10_witness :
  exists l1 k e l2,
    LRU.cache Sample.tied = l1 ++ (k, e) :: l2 /\
    Forall (fun p => LRU.lastAccessed e < LRU.lastAccessed (snd p)) l1 /\
    Forall (fun p => LRU.lastAccessed e <= LRU.lastAccessed (snd p)) l2 /\
    LRU.evictLRU Sample.tied =
    ([lru_cache_eviction k (LRU.size Sample.tied)],
     LRU.mkCache (l1 ++ l2) (LRU.maxSize Sample.tied)).
Proof.
  apply (@C10_first_minimal_entry_evicted nat Sample.tied wf_tied). discriminate.
Defined.

(** At the tied cache the entry evicted is "b", the first of the two
    that were last accessed at 3. *)
Example evict_tied :
  LRU.evictLRU Sample.tied =
  ([lru_cache_eviction "b" 3],
   LRU.mkCache [("a", LRU.mkEntry 10%nat 5); ("c", LRU.mkEntry 30%nat 3)] 3).
Proof. reflexivity. Qed.

(** Capacity 2 and three inserts at increasing readings: u1 goes. *)
Example untouched_scenario :
  let c1 := snd (LRU.set "u1" 1%nat 1 (LRU.mkCache [] 2)) in
  let c2 := snd (LRU.set "u2" 2%nat 2 c1) in
  let r := LRU.set "u3" 3%nat 3 c2 in
  LRU.evicted (fst r) = ["u1"] /\ LRU.size (snd r) = 2 /\
  LRU.has "u1" (snd r) = false /\ LRU.has "u2" (snd r) = true /\
  LRU.has "u3" (snd r) = true.
Proof. repeat split. Qed.

(** ** The dispatcher *)

Lemma null_or_not (v : json) : v = JNull \/ v <> JNull.
Proof. destruct v; (now left) || (right; discriminate). Qed.

Section DispatchFacts.
Variable clock : nat -> Z.
Variable moodboard_uri : string.

(** Unfolding the monad and the handlers down to the world they return. *)
Ltac run :=
  unfold handleHTTPTransport, handleToolsCall, handleResourcesRead,
    handleToolsList, handleResourcesList, handlePromptsList,
    handleInitialize, handlePing, enhanceEmotionToThreeJS, to_number, ai_run,
    jsonRpcResponse, Date_now, logger, try_catch, bind, await, ret;
  simpl.

Lemma read_request_not_null (v : json) :
  v <> JNull ->
  read_request v =
  Normal {| jsonrpc := property "jsonrpc" v; id := property "id" v;
            method := property "method" v; params := property "params" v |}.
Proof. destruct v; simpl; congruence. Qed.

(** tools/call touches neither the cache nor the count of servers
    built; it answers with the id of the request, unless the conversion
    of the tool name or of the category to a string throws. *)
Lemma handleToolsCall_spec (request : JsonRpcRequest) (env : Env)
                           (userId userEmail : string) (w : World) :
  exists outcome w',
    handleToolsCall clock request env userId userEmail w = (outcome, w') /\
    serverCache w' = serverCache w /\ constructed w' = constructed w /\
    ((exists payload, outcome = Normal (JsonRpcResponse (id request) payload)) \/
     outcome = Throw cannot_convert) /\
    (to_string (property "name" (params_or_empty request)) = Normal tt ->
     to_string (Some (or_else (optional_property "category"
                                 (property "arguments" (params_or_empty request)))
                              (JStr "all"))) = Normal tt ->
     exists payload, outcome = Normal (JsonRpcResponse (id request) payload)).
Proof.
  unfold handleToolsCall.
  set (name := property "name" (params_or_empty request)).
  set (args := property "arguments" (params_or_empty request)).
  set (category := or_else (optional_property "category" args) (JStr "all")).
  destruct (is_string "generate_mood_scene" name).
  - set (emotion := or_else (optional_property "emotion" args) (JStr "")).
    set (complexity := or_else (optional_property "complexity" args) (JNum 5)).
    unfold enhanceEmotionToThreeJS, to_number, ai_run, jsonRpcResponse, Date_now, logger,
      try_catch, bind, await, ret. simpl.
    destruct (conversion_throws complexity); simpl;
      [do 2 eexists; repeat split; eauto|].
    destruct (conversion_throws emotion); simpl;
      [do 2 eexists; repeat split; eauto|].
    destruct (AI env emotion complexity); simpl; do 2 eexists; repeat split; eauto.
  - destruct (is_string "learn_mood_primitives" name).
    + unfold jsonRpcResponse, logger, bind, await, ret.
      destruct (to_string (Some category)) as [[]|error] eqn:Hc.
      * do 2 eexists. repeat split; eauto.
      * do 2 eexists. split; [reflexivity|]. repeat split; [right|intros _ [=]].
        unfold to_string in Hc.
        destruct (conversion_throws category); congruence.
    + unfold jsonRpcResponse, bind, await, ret.
      destruct (to_string name) as [[]|error] eqn:Hn.
      * do 2 eexists. repeat split; eauto.
      * do 2 eexists. split; [reflexivity|]. repeat split; [right|intros [=]].
        unfold to_string in Hn.
        destruct name as [x|]; [|discriminate].
        destruct (conversion_throws x); congruence.
Qed.

(** Whatever the request, the transport returns one JSON-RPC response
    and leaves the cache and the count of servers built as they were;
    the response carries the id of the request when the body parsed to
    a value other than null, the asset loader did not fail and no
    conversion to a string threw. *)
Lemma handleHTTPTransport_spec (server : McpServer) (request : Request)
      (env : Env) (userId userEmail : string) (w : World) :
  exists rid payload w',
    handleHTTPTransport clock moodboard_uri server request env userId userEmail w
    = (Normal (JsonRpcResponse rid payload), w') /\
    serverCache w' = serverCache w /\ constructed w' = constructed w /\
    (forall v, body request = Normal v -> v <> JNull ->
               (forall error, ASSETS env "/moodboard.html" <> Throw error) ->
               envelope_converts v ->
               rid = property "id" v).
Proof.
  unfold handleHTTPTransport, try_catch, bind, await.
  destruct (body request) as [v|error]; simpl;
    [|do 3 eexists; repeat split; intros; discriminate].
  destruct (null_or_not v) as [->|Hv].
  - simpl. do 3 eexists. repeat split. intros v [= <-] Hn. congruence.
  - rewrite (read_request_not_null Hv). simpl.
    repeat match goal with
           | |- context [if ?b then _ else _] =>
               lazymatch b with
               | negb _ => destruct b
               | is_string _ (property "method" v) => destruct b
               end
           end;
      try (unfold ret, handleInitialize, handlePing, handleToolsList,
             handleResourcesList, handlePromptsList, jsonRpcResponse; simpl;
           do 3 eexists; repeat split; intros v' [= <-]; reflexivity).
    + destruct (handleToolsCall_spec
                  {| jsonrpc := property "jsonrpc" v; id := property "id" v;
                     method := property "method" v;
                     params := property "params" v |} env userId userEmail w)
        as (outcome & w' & -> & Hc & Hn & Hshape & Hid).
      destruct Hshape as [[payload ->] | ->]; simpl.
      * do 3 eexists. repeat split; eauto. intros v' [= <-]. reflexivity.
      * do 3 eexists. repeat split; eauto.
        intros v' [= <-] _ _ (_ & Hname & _ & Hcategory).
        destruct (Hid Hname Hcategory) as [payload [=]].
    + unfold handleResourcesRead, bind, await, ret, jsonRpcResponse. simpl.
      destruct (is_string moodboard_uri _); simpl.
      * destruct (ASSETS env "/moodboard.html") as [html|error] eqn:Ha; simpl;
          do 3 eexists; repeat split; intros v' [= <-] _ Hok;
          [reflexivity | exfalso; exact (Hok _ eq_refl)].
      * destruct (to_string (property "uri" _)) as [[]|error] eqn:Hu; simpl;
          do 3 eexists; repeat split; intros v' [= <-] _ _ (_ & _ & Huri & _);
          [reflexivity | unfold params_or_empty in Hu; simpl in Hu; congruence].
    + destruct (to_string (property "method" v)) as [[]|error] eqn:Hm; simpl;
        do 3 eexists; repeat split; intros v' [= <-] _ _ (Hmethod & _);
        [reflexivity | congruence].
Qed.

End DispatchFacts.

(** ** getOrCreateServer *)

Lemma has_after_set (V : Type) (c : LRU.LRUCache V) (key : string) (v : V) (now : Z) :
  LRU.has key (snd (LRU.set key v now c)) = true.
Proof.
  unfold LRU.set.
  destruct ((LRU.maxSize c <=? LRU.size c) && negb (JsMap.has key (LRU.cache c)));
    [destruct (LRU.evictLRU c)|]; simpl; unfold LRU.has, JsMap.has; simpl;
    now rewrite get_set_same.
Qed.

Lemma getOrCreateServer_hit (clock : nat -> Z) (env : Env)
      (userId email : string) (w : World) (e : LRU.Entry McpServer) :
  JsMap.get userId (LRU.cache (serverCache w)) = Some e ->
  getOrCreateServer clock env userId email w =
  (Normal (LRU.value e),
   {| serverCache := snd (LRU.get userId (clock (clock_reads w)) (serverCache w));
      constructed := constructed w; logged := logged w; ai_runs := ai_runs w;
      clock_reads := S (clock_reads w) |}).
Proof.
  intros He. unfold getOrCreateServer, bind, serverCache_get, LRU.has, JsMap.has.
  rewrite He, (@get_hit _ _ _ _ (clock (clock_reads w)) He). reflexivity.
Qed.

Lemma getOrCreateServer_miss (clock : nat -> Z) (env : Env)
      (userId email : string) (w : World) :
  JsMap.get userId (LRU.cache (serverCache w)) = None ->
  let server := {| ref := constructed w; bound_userId := userId;
                   bound_email := email |} in
  let stored := LRU.set userId server (clock (clock_reads w)) (serverCache w) in
  getOrCreateServer clock env userId email w =
  (Normal server,
   {| serverCache := snd stored;
      constructed := S (constructed w); logged := logged w ++ fst stored;
      ai_runs := ai_runs w; clock_reads := S (clock_reads w) |}).
Proof.
  intros He. unfold getOrCreateServer, bind, serverCache_get, LRU.has, JsMap.has.
  rewrite He. unfold new_McpServer, serverCache_set, ret. simpl.
  destruct (LRU.set _ _ _ _). reflexivity.
Qed.

Lemma getOrCreateServer_returns (clock : nat -> Z) (env : Env)
      (userId email : string) (w : World) :
  exists server,
    getOrCreateServer clock env userId email w =
    (Normal server, snd (getOrCreateServer clock env userId email w)).
Proof.
  destruct (JsMap.get userId (LRU.cache (serverCache w))) as [e|] eqn:He.
  - rewrite (@getOrCreateServer_hit clock env userId email w e He). eauto.
  - rewrite (@getOrCreateServer_miss clock env userId email w He). eauto.
Qed.

(** C9. For a key that is cached, two calls of get in a row return the
    instance stored with it, and so do two calls of getOrCreateServer;
    the keys of the cache, their order and the other bindings stay as
    they were, no server is constructed and nothing is logged, an
    eviction in particular. *)
Theorem C9_repeated_get_same_instance
  (clock : nat -> Z) (env : Env) (w : World) (userId email : string)
  (e : LRU.Entry McpServer) (t1 t2 : Z)
  (Hcached : JsMap.get userId (LRU.cache (serverCache w)) = Some e) :
  let g1 := LRU.get userId t1 (serverCache w) in
  let g2 := LRU.get userId t2 (snd g1) in
  let s1 := getOrCreateServer clock env userId email w in
  let s2 := getOrCreateServer clock env userId email (snd s1) in
  fst g1 = Some (LRU.value e) /\ fst g2 = Some (LRU.value e) /\
  JsMap.keys (LRU.cache (snd g2)) = JsMap.keys (LRU.cache (serverCache w)) /\
  (forall k, k <> userId ->
     JsMap.get k (LRU.cache (snd g2)) = JsMap.get k (LRU.cache (serverCache w))) /\
  fst s1 = Normal (LRU.value e) /\ fst s2 = Normal (LRU.value e) /\
  constructed (snd s2) = constructed w /\ logged (snd s2) = logged w /\
  JsMap.keys (LRU.cache (serverCache (snd s2)))
  = JsMap.keys (LRU.cache (serverCache w)).
Proof.
  cbv zeta.
  destruct (@get_twice _ (serverCache w) userId e t1 t2 Hcached)
    as (Hg1 & Hg2 & Hkeys & _ & Hothers).
  destruct (@get_twice _ (serverCache w) userId e (clock (clock_reads w))
              (clock (S (clock_reads w))) Hcached)
    as (_ & _ & Hkeys' & _ & _).
  pose proof (@getOrCreateServer_hit clock env userId email w e Hcached) as H1.
  rewrite H1. simpl.
  assert (Hcached1 :
            JsMap.get userId
              (LRU.cache (snd (LRU.get userId (clock (clock_reads w)) (serverCache w))))
            = Some (LRU.mkEntry (LRU.value e) (clock (clock_reads w)))).
  { rewrite (@get_hit _ _ _ _ (clock (clock_reads w)) Hcached). simpl.
    apply get_set_same. }
  match goal with
  | |- context [getOrCreateServer clock env userId email ?w1] =>
      pose proof (@getOrCreateServer_hit clock env userId email w1 _ Hcached1) as H2
  end.
  rewrite H2. simpl. repeat split; auto.
Qed.

Lemma C9_witness :
  let s1 := getOrCreateServer Sample.ticking_clock Sample.env "u" "u@example.org"
                              Sample.warm_world in
  let s2 := getOrCreateServer Sample.ticking_clock Sample.env "u" "u@example.org"
                              (snd s1) in
  fst s1 = Normal Sample.server /\ fst s2 = Normal Sample.server /\
  constructed (snd s2) = 1%nat /\ logged (snd s2) = [].
Proof.
  destruct (@C9_repeated_get_same_instance
              Sample.ticking_clock Sample.env Sample.warm_world "u"
              "u@example.org" (LRU.mkEntry Sample.server 1000) 5 6 eq_refl)
    as (_ & _ & _ & _ & H1 & H2 & Hn & Hl & _).
  exact (conj H1 (conj H2 (conj Hn Hl))).
Defined.

(** ** Malformed envelopes *)

Lemma handleHTTPTransport_malformed
      (clock : nat -> Z) (moodboard_uri : string) (server : McpServer)
      (request : Request) (env : Env) (userId userEmail : string)
      (w : World) (v : json) :
  body request = Normal v -> v <> JNull -> malformed_envelope v ->
  exists e,
    ((is_string "2.0" (property "jsonrpc" v) = false /\
      e = {| error_code := -32600; message := InvalidRequest |}) \/
     (is_string "2.0" (property "jsonrpc" v) = true /\
      e = {| error_code := -32601; message := MethodNotFound undefined |})) /\
    handleHTTPTransport clock moodboard_uri server request env userId userEmail w
    = (Normal (JsonRpcResponse (property "id" v) (inr e)), w).
Proof.
  intros Hbody Hv Hmal.
  unfold handleHTTPTransport, try_catch, bind, await.
  rewrite Hbody, (read_request_not_null Hv). simpl.
  destruct (is_string "2.0" (property "jsonrpc" v)) eqn:Hversion; simpl.
  - destruct Hmal as [Hmal|Hmethod]; [congruence|].
    rewrite Hmethod. simpl. eexists. split; [right; split; reflexivity|].
    reflexivity.
  - eexists. split; [left; split; reflexivity|]. reflexivity.
Qed.

(** The answer to a malformed envelope, whatever the server and the
    world: reading the version marker of [null] throws, which the catch
    of the transport reports under the id "error". *)
Lemma handleHTTPTransport_malformed_answer
      (clock : nat -> Z) (moodboard_uri : string) (server : McpServer)
      (request : Request) (env : Env) (userId userEmail : string)
      (w : World) (v : json) :
  body request = Normal v -> malformed_envelope v ->
  handleHTTPTransport clock moodboard_uri server request env userId userEmail w
  = (Normal
       match v with
       | JNull =>
           JsonRpcResponse (Some (JStr "error"))
             (inr {| error_code := -32700;
                     message :=
                       ParseError
                         "Cannot read properties of null (reading 'jsonrpc')" |})
       | _ =>
           JsonRpcResponse (property "id" v)
             (inr (if is_string "2.0" (property "jsonrpc" v)
                   then {| error_code := -32601;
                           message := MethodNotFound undefined |}
                   else {| error_code := -32600; message := InvalidRequest |}))
       end,
     w).
Proof.
  intros Hbody Hmalformed. destruct (null_or_not v) as [->|Hv].
  - unfold handleHTTPTransport, try_catch, bind, await. rewrite Hbody. reflexivity.
  - destruct (@handleHTTPTransport_malformed clock moodboard_uri server request
                env userId userEmail w v Hbody Hv Hmalformed) as (e & He & ->).
    destruct He as [[E ->]|[E ->]]; rewrite E; destruct v; congruence.
Qed.

(** C3, amended. A request that presents a valid key at /mcp and whose
    body parses to a value with a malformed envelope is answered with a
    JSON-RPC error: -32600 under the id of the request when the version
    marker is wrong or missing, -32601 under that id when only the
    method name is missing, and -32700 under the id "error" when the
    body is [null]. The transport performs no cache operation itself
    and leaves the world as it found it. The entry point, though, has
    called getOrCreateServer before the body is parsed, and the world it
    returns is the one left by that call: on a hit the cache is the
    one left by [get], where the entry of the user carries the clock
    reading of the call, and no server is constructed; on a miss a
    server is constructed and stored with [set], evicting as [set]
    does, and the events of [set] are logged. *)
Theorem C3_malformed_envelope_after_cache_lookup
  (clock : nat -> Z) (moodboard_uri : string) (server : McpServer)
  (request : Request) (env : Env) (w : World)
  (header userId email : string) (v : json)
  (Hheader : authorization request = Some header)
  (Hkey : Str.remove_first "Bearer " header <> "")
  (Hvalid : DB env (Str.remove_first "Bearer " header)
            = Normal (Some (userId, email)))
  (Hbody : body request = Normal v)
  (Hmalformed : malformed_envelope v) :
  let attempt := auth_attempt (Some (userId, email)) true in
  let w1 := snd (logger attempt w) in
  let w2 := snd (getOrCreateServer clock env userId email w1) in
  let now := clock (clock_reads w) in
  let answer :=
    match v with
    | JNull =>
        JsonRpcResponse (Some (JStr "error"))
          (inr {| error_code := -32700;
                  message :=
                    ParseError
                      "Cannot read properties of null (reading 'jsonrpc')" |})
    | _ =>
        JsonRpcResponse (property "id" v)
          (inr (if is_string "2.0" (property "jsonrpc" v)
                then {| error_code := -32601;
                        message := MethodNotFound undefined |}
                else {| error_code := -32600; message := InvalidRequest |}))
    end in
  handleHTTPTransport clock moodboard_uri server request env userId email w
  = (Normal answer, w) /\
  handleApiKeyRequest clock moodboard_uri request env "/mcp" w
  = (Normal answer, w2) /\
  (forall entry,
     JsMap.get userId (LRU.cache (serverCache w)) = Some entry ->
     serverCache w2 = snd (LRU.get userId now (serverCache w)) /\
     JsMap.get userId (LRU.cache (serverCache w2))
     = Some (LRU.mkEntry (LRU.value entry) now) /\
     (forall k, k <> userId ->
        JsMap.get k (LRU.cache (serverCache w2))
        = JsMap.get k (LRU.cache (serverCache w))) /\
     constructed w2 = constructed w /\
     logged w2 = logged w ++ [attempt]) /\
  (LRU.has userId (serverCache w) = false ->
     let built := {| ref := constructed w; bound_userId := userId;
                     bound_email := email |} in
     let stored := LRU.set userId built now (serverCache w) in
     serverCache w2 = snd stored /\
     LRU.has userId (serverCache w2) = true /\
     constructed w2 = S (constructed w) /\
     logged w2 = logged w ++ [attempt] ++ fst stored).
Proof.
  cbv zeta. split; [|split; [|split]].
  - now apply handleHTTPTransport_malformed_answer.
  - unfold handleApiKeyRequest, try_catch, bind, await.
    rewrite Hheader. simpl.
    apply String.eqb_neq in Hkey. rewrite Hkey, Hvalid. simpl.
    match goal with
    | |- context [getOrCreateServer clock env userId email ?w1] =>
        destruct (getOrCreateServer_returns clock env userId email w1)
          as (server' & ->)
    end.
    rewrite (@handleHTTPTransport_malformed_answer clock moodboard_uri server'
               request env userId email _ v Hbody Hmalformed).
    reflexivity.
  - intros entry Hhit.
    assert (Hcached : JsMap.get userId
                        (LRU.cache (serverCache
                           (snd (logger (auth_attempt (Some (userId, email)) true)
                                        w))))
                      = Some entry) by exact Hhit.
    rewrite (@getOrCreateServer_hit clock env userId email _ entry Hcached).
    simpl. rewrite (@get_hit _ _ _ _ (clock (clock_reads w)) Hhit). simpl.
    repeat split.
    + apply get_set_same.
    + intros k Hk. now apply get_set_other.
  - intros Hmiss. unfold LRU.has in Hmiss.
    assert (Hnone : JsMap.get userId
                      (LRU.cache (serverCache
                         (snd (logger (auth_attempt (Some (userId, email)) true) w))))
                    = None).
    { simpl. unfold JsMap.has in Hmiss.
      destruct (JsMap.get userId (LRU.cache (serverCache w)));
        [discriminate|reflexivity]. }
    rewrite (@getOrCreateServer_miss clock env userId email _ Hnone). simpl.
    repeat split.
    + apply has_after_set.
    + now rewrite <- app_assoc.
Qed.

Lemma C3_witness :
  let attempt := auth_attempt (Some ("u", "u@example.org")) true in
  let r := handleApiKeyRequest Sample.frozen_clock Sample.uri Sample.wrong_version
             Sample.env "/mcp" initial_world in
  let r' := handleApiKeyRequest Sample.ticking_clock Sample.uri
              {| authorization := Some "Bearer k1"; body := Normal JNull |}
              Sample.env "/mcp" Sample.warm_world in
  (fst r = Normal (JsonRpcResponse (Some (JNum 1))
                     (inr {| error_code := -32600; message := InvalidRequest |})) /\
   LRU.has "u" (serverCache (snd r)) = true /\
   constructed (snd r) = 1%nat) /\
  (fst r' = Normal (JsonRpcResponse (Some (JStr "error"))
                      (inr {| error_code := -32700;
                              message :=
                                ParseError
                                  "Cannot read properties of null (reading 'jsonrpc')"
                           |})) /\
   JsMap.get "u" (LRU.cache (serverCache (snd r')))
   = Some (LRU.mkEntry Sample.server 1001) /\
   constructed (snd r') = 1%nat /\
   logged (snd r') = [attempt]).
Proof.
  assert (Hkey : Str.remove_first "Bearer " "Bearer k1" <> "")
    by (vm_compute; discriminate).
  assert (Hmalformed : malformed_envelope
                         (JObj [("jsonrpc", JStr "1.0"); ("id", JNum 1);
                                ("method", JStr "ping")]))
    by (left; reflexivity).
  assert (Hnull : malformed_envelope JNull) by (left; reflexivity).
  split.
  - destruct (@C3_malformed_envelope_after_cache_lookup
                Sample.frozen_clock Sample.uri Sample.server Sample.wrong_version
                Sample.env initial_world "Bearer k1" "u" "u@example.org"
                (JObj [("jsonrpc", JStr "1.0"); ("id", JNum 1);
                       ("method", JStr "ping")])
                eq_refl Hkey eq_refl eq_refl Hmalformed)
      as (_ & Hentry & _ & Hmiss).
    destruct (Hmiss eq_refl) as (_ & Hhas & Hbuilt & _).
    exact (conj (f_equal fst Hentry) (conj Hhas Hbuilt)).
  - destruct (@C3_malformed_envelope_after_cache_lookup
                Sample.ticking_clock Sample.uri Sample.server
                {| authorization := Some "Bearer k1"; body := Normal JNull |}
                Sample.env Sample.warm_world "Bearer k1" "u" "u@example.org"
                JNull eq_refl Hkey eq_refl eq_refl Hnull)
      as (_ & Hentry & Hhit & _).
    destruct (Hhit (LRU.mkEntry Sample.server 1000) eq_refl)
      as (_ & Hstamp & _ & Hbuilt & Hlog).
    exact (conj (f_equal fst Hentry) (conj Hstamp (conj Hbuilt Hlog))).
Defined.

(** A request with a wrong version marker, sent with a valid key to a
    server whose cache is empty: the answer is the error -32600, and
    the cache has gained an entry for the user, with a server built for
    it. *)
Lemma C3_counterexample :
  let r := handleApiKeyRequest Sample.frozen_clock Sample.uri
             Sample.wrong_version Sample.env "/mcp" initial_world in
  malformed_envelope (JObj [("jsonrpc", JStr "1.0"); ("id", JNum 1);
                            ("method", JStr "ping")]) /\
  fst r = Normal (JsonRpcResponse (Some (JNum 1))
                    (inr {| error_code := -32600; message := InvalidRequest |})) /\
  LRU.size (serverCache initial_world) = 0 /\
  LRU.size (serverCache (snd r)) = 1 /\
  LRU.has "u" (serverCache (snd r)) = true /\
  constructed (snd r) = 1%nat /\
  serverCache (snd r) <> serverCache initial_world.
Proof.
  cbv zeta. split; [left; reflexivity|]. repeat split. discriminate.
Qed.

(** ** Tool calls *)

(** C4, at its failing input. The registered input schema rejects an
    empty emotion, yet tools/call with the arguments {emotion: ""}
    runs the model on the empty emotion with the default complexity 5,
    and answers with what the model gave: a scene when it answered, the
    tool error when it threw. No validation error is produced. *)
Theorem C4_empty_emotion_reaches_the_model
  (clock : nat -> Z) (env : Env) (userId userEmail : string)
  (request_id : jsvalue) (w : World) :
  let arguments := JObj [("emotion", JStr "")] in
  let request :=
    {| jsonrpc := Some (JStr "2.0"); id := request_id;
       method := Some (JStr "tools/call");
       params := Some (JObj [("name", JStr "generate_mood_scene");
                             ("arguments", arguments)]) |} in
  let r := handleToolsCall clock request env userId userEmail w in
  inputSchema (Some arguments) = None /\
  ai_runs (snd r) = ai_runs w ++ [(JStr "", JNum 5)] /\
  fst r =
  Normal (JsonRpcResponse request_id
    (inl (ToolCallResult
      match AI env (JStr "") (JNum 5) with
      | Normal response =>
          let scene := {| code := cleanupCode (response_text response);
                          emotion := JStr ""; height := JNum 600 |} in
          {| content := StringifyResult scene;
             structuredContent := Some scene; isError := false |}
      | Throw error =>
          {| content := ErrorText ("Error: " ++ error);
             structuredContent := None; isError := true |}
      end))).
Proof.
  cbv zeta. split; [reflexivity|].
  unfold handleToolsCall, enhanceEmotionToThreeJS, to_number, ai_run, jsonRpcResponse,
    Date_now, logger, try_catch, bind, await, ret. simpl.
  destruct (AI env (JStr "") (JNum 5)); simpl; split; reflexivity.
Qed.

(** C7, at its failing input. A well-formed resources/read of the
    moodboard resource, when the asset loader fails: the exception
    reaches the catch of the transport, and the response carries the id
    "error" and the code -32700 instead of the id of the request. *)
Theorem C7_handler_exception_loses_the_request_id
  (clock : nat -> Z) (moodboard_uri : string) (server : McpServer)
  (ai : json -> json -> completion AiResponse) (gateway : option string)
  (db : string -> completion (option (string * string)))
  (error userId userEmail : string) (auth : option string)
  (request_id : json) (w : World) :
  let env := {| AI := ai; AI_GATEWAY_ID := gateway;
                ASSETS := fun _ => Throw error; DB := db |} in
  let request :=
    {| authorization := auth;
       body := Normal (envelope request_id (JStr "resources/read")
                                (JObj [("uri", JStr moodboard_uri)])) |} in
  handleHTTPTransport clock moodboard_uri server request env userId userEmail w
  = (Normal (JsonRpcResponse (Some (JStr "error"))
               (inr {| error_code := -32700; message := ParseError error |})),
     w).
Proof.
  cbv zeta.
  unfold handleHTTPTransport, handleResourcesRead, try_catch, bind, await, ret.
  simpl. rewrite String.eqb_refl. reflexivity.
Qed.

(** C8. generate_mood_scene is called with the emotion "calm" and the
    complexity 3, no height, and the model answers the text "X", as a
    string or as the [response] of an object. The JSON-RPC response of
    the transport carries the id of the request and the tool result
    whose structured content is {code: "X", emotion: "calm",
    height: 600}, its text being the serialisation of that object; the
    handler of the OAuth-bound server returns the same tool result for
    the arguments as the schema parses them. *)
Theorem C8_calm_scene_defaults_height
  (clock : nat -> Z) (moodboard_uri : string) (server : McpServer)
  (env : Env) (userId userEmail props_userId : string)
  (props_email auth : option string)
  (request_id : json) (response : AiResponse) (w : World)
  (Hstub : AI env (JStr "calm") (JNum 3) = Normal response)
  (Htext : response = AiString "X" \/ response = AiObject (Some "X"))
  (Hprops : props_userId <> "") :
  let arguments := JObj [("emotion", JStr "calm"); ("complexity", JNum 3)] in
  let request :=
    {| authorization := auth;
       body := Normal (generate_call request_id arguments) |} in
  let scene := {| code := "X"; emotion := JStr "calm"; height := JNum 600 |} in
  let result := {| content := StringifyResult scene;
                   structuredContent := Some scene; isError := false |} in
  fst (handleHTTPTransport clock moodboard_uri server request env
                           userId userEmail w)
  = Normal (JsonRpcResponse (Some request_id) (inl (ToolCallResult result))) /\
  inputSchema (Some arguments)
  = Some {| input_emotion := "calm"; input_complexity := Some 3;
            input_height := None |} /\
  fst (generate_mood_scene clock (Some props_userId) props_email env
         {| input_emotion := "calm"; input_complexity := Some 3;
            input_height := None |} w)
  = Normal result.
Proof.
  cbv zeta. apply String.eqb_neq in Hprops.
  unfold handleHTTPTransport, handleToolsCall, generate_mood_scene,
    enhanceEmotionToThreeJS, to_number, ai_run, jsonRpcResponse, Date_now, logger,
    try_catch, bind, await, ret, missing.
  simpl. rewrite Hprops, Hstub.
  destruct Htext as [-> | ->]; repeat split.
Qed.

Lemma C8_witness :
  fst (handleHTTPTransport Sample.frozen_clock Sample.uri Sample.server
         {| authorization := Some "Bearer k1";
            body := Normal (generate_call (JNum 7)
                      (JObj [("emotion", JStr "calm"); ("complexity", JNum 3)])) |}
         Sample.env "u" "u@example.org" initial_world)
  = Normal (JsonRpcResponse (Some (JNum 7))
      (inl (ToolCallResult
        {| content := StringifyResult
                        {| code := "X"; emotion := JStr "calm";
                           height := JNum 600 |};
           structuredContent := Some {| code := "X"; emotion := JStr "calm";
                                        height := JNum 600 |};
           isError := false |}))).
Proof.
  assert (Hprops : "u" <> "") by discriminate.
  exact (proj1 (@C8_calm_scene_defaults_height
                  Sample.frozen_clock Sample.uri Sample.server Sample.env
                  "u" "u@example.org" "u" None (Some "Bearer k1") (JNum 7)
                  (AiString "X") initial_world eq_refl (or_introl eq_refl)
                  Hprops)).
Defined.


(** * Further properties of the cache *)

Section CacheUse.
Variable V : Type.
Implicit Types (c : LRU.LRUCache V) (key : string) (v : V) (now : Z).

Lemma get_after_set c key v now :
  JsMap.get key (LRU.cache (snd (LRU.set key v now c)))
  = Some (LRU.mkEntry v now).
Proof.
  unfold LRU.set.
  destruct ((LRU.maxSize c <=? LRU.size c) && negb (JsMap.has key (LRU.cache c)));
    [destruct (LRU.evictLRU c)|]; simpl; apply get_set_same.
Qed.

Lemma evicted_oldest c key v now :
  LRU.has key c = false -> LRU.maxSize c <= LRU.size c ->
  LRU.evicted (fst (LRU.set key v now c))
  = match LRU.oldest c with Some k => [k] | None => [] end.
Proof.
  intros Hnew Hfull. rewrite set_full by assumption.
  rewrite evictLRU_unfold. now destruct (LRU.oldest c).
Qed.

Lemma evicted_none c key v now :
  LRU.has key c = true \/ LRU.size c < LRU.maxSize c ->
  LRU.evicted (fst (LRU.set key v now c)) = [].
Proof.
  intros [Hhas|Hroom]; [rewrite set_present | rewrite set_room]; auto.
Qed.

(** X1. Insert then look up: whatever the cache and its capacity, the
    instance stored by set is the one the next get returns. *)
Theorem set_then_get c key v t1 t2 :
  fst (LRU.get key t2 (snd (LRU.set key v t1 c))) = Some v /\
  LRU.has key (snd (LRU.set key v t1 c)) = true.
Proof.
  split; [|apply has_after_set].
  erewrite get_hit by apply get_after_set. reflexivity.
Qed.

(** X2. The size after set, in every case: unchanged for a present key, one
    more below capacity, and otherwise unchanged again, except that an
    empty cache (a capacity that is not positive) ends with one entry. *)
Theorem size_after_set c key v now :
  LRU.size (snd (LRU.set key v now c)) =
  if LRU.has key c then LRU.size c
  else if LRU.size c <? LRU.maxSize c then LRU.size c + 1
       else Z.max 1 (LRU.size c).
Proof.
  destruct (LRU.has key c) eqn:Hhas.
  - rewrite set_present by assumption. unfold LRU.size, LRU.has in *. simpl.
    now rewrite size_set, Hhas.
  - destruct (Z.ltb_spec (LRU.size c) (LRU.maxSize c)) as [Hlt|Hge].
    + rewrite set_room by assumption. unfold LRU.size, LRU.has in *. simpl.
      now rewrite size_set, Hhas.
    + rewrite set_full by assumption. rewrite evictLRU_unfold.
      destruct (LRU.oldest c) as [k|] eqn:Ho; unfold LRU.size; simpl.
      * pose proof (oldest_present _ Ho) as Hk.
        assert (Hne : key <> k) by (intros ->; congruence).
        rewrite size_set. unfold JsMap.has.
        rewrite get_delete_other by assumption.
        unfold LRU.has, JsMap.has in Hhas, Hk.
        destruct (JsMap.get key (LRU.cache c)); [discriminate|].
        pose proof (length_delete k (LRU.cache c)) as Hlen.
        unfold JsMap.has in Hlen.
        destruct (JsMap.get k (LRU.cache c)); [|discriminate].
        specialize (Hlen eq_refl). unfold JsMap.size. lia.
      * apply oldest_none_empty in Ho. rewrite Ho. reflexivity.
Qed.

(** X3. set evicts at most one key, and every other binding, the new key
    apart, is what it was. *)
Theorem set_keeps_other_entries c key v now k'
  (Hother : k' <> key)
  (Hkept : ~ In k' (LRU.evicted (fst (LRU.set key v now c)))) :
  JsMap.get k' (LRU.cache (snd (LRU.set key v now c)))
  = JsMap.get k' (LRU.cache c) /\
  (List.length (LRU.evicted (fst (LRU.set key v now c))) <= 1)%nat.
Proof.
  revert Hkept. unfold LRU.set.
  destruct ((LRU.maxSize c <=? LRU.size c) && negb (JsMap.has key (LRU.cache c))).
  - rewrite evictLRU_unfold. destruct (LRU.oldest c) as [k|]; simpl.
    + intros Hkept. split; [|lia].
      rewrite get_set_other by assumption.
      apply get_delete_other. intros ->. tauto.
    + intros _. split; [|lia]. now apply get_set_other.
  - simpl. intros _. split; [|lia]. now apply get_set_other.
Qed.

(** X4. A touch protects: after get(key) at a reading later than the
    timestamp of some other entry, the next set, whatever key it
    inserts, does not evict [key]. *)
Theorem touched_entry_survives c key e now k' e' key2 v2 now2
  (Hwf : JsMap.wf (LRU.cache c))
  (Hcached : JsMap.get key (LRU.cache c) = Some e)
  (Hother : JsMap.get k' (LRU.cache c) = Some e')
  (Hdistinct : k' <> key)
  (Hlater : LRU.lastAccessed e' < now) :
  let touched := snd (LRU.get key now c) in
  ~ In key (LRU.evicted (fst (LRU.set key2 v2 now2 touched))) /\
  LRU.has key (snd (LRU.set key2 v2 now2 touched)) = true.
Proof.
  cbv zeta. rewrite (get_hit _ _ now Hcached). simpl.
  set (c1 := LRU.mkCache
               (JsMap.set key (LRU.mkEntry (LRU.value e) now) (LRU.cache c))
               (LRU.maxSize c)).
  assert (Hwf1 : JsMap.wf (LRU.cache c1)) by (simpl; now apply wf_set).
  assert (Hkey1 : JsMap.get key (LRU.cache c1) = Some (LRU.mkEntry (LRU.value e) now))
    by (simpl; apply get_set_same).
  assert (Hother1 : JsMap.get k' (LRU.cache c1) = Some e')
    by (simpl; rewrite get_set_other; assumption).
  assert (Hnot : forall k, LRU.oldest c1 = Some k -> k <> key).
  { intros k Ho ->. destruct (oldest_minimal c1 Hwf1 Ho) as (e0 & Hget & Hmin).
    rewrite Hkey1 in Hget. injection Hget as <-. simpl in Hmin.
    specialize (Hmin k' e' (get_in _ _ Hother1)). lia. }
  unfold LRU.set.
  destruct ((LRU.maxSize c1 <=? LRU.size c1)
            && negb (JsMap.has key2 (LRU.cache c1))).
  - rewrite evictLRU_unfold. destruct (LRU.oldest c1) as [k|] eqn:Ho; simpl.
    + specialize (Hnot k eq_refl). split; [intros [->|[]]; congruence|].
      unfold LRU.has, JsMap.has. simpl.
      destruct (String.eqb_spec key key2) as [->|Hne2].
      * now rewrite get_set_same.
      * rewrite get_set_other by assumption.
        rewrite get_delete_other by auto. simpl in Hkey1. now rewrite Hkey1.
    + split; [tauto|]. unfold LRU.has, JsMap.has. simpl.
      destruct (String.eqb_spec key key2) as [->|Hne2].
      * now rewrite get_set_same.
      * rewrite get_set_other by assumption. simpl in Hkey1. now rewrite Hkey1.
  - simpl. split; [tauto|]. unfold LRU.has, JsMap.has. simpl.
    destruct (String.eqb_spec key key2) as [->|Hne2].
    + now rewrite get_set_same.
    + rewrite get_set_other by assumption. simpl in Hkey1. now rewrite Hkey1.
Qed.

(** X5. With a capacity of 1, or one that is not positive, a cache of at
    most one entry holds after set exactly the key just set. *)
Theorem capacity_one_holds_last_key c key v now
  (Hcapacity : LRU.maxSize c <= 1)
  (Hsize : LRU.size c <= 1) :
  LRU.cache (snd (LRU.set key v now c)) = [(key, LRU.mkEntry v now)].
Proof.
  destruct c as [m cap]. unfold LRU.size, JsMap.size in *. simpl in *.
  destruct m as [|[k0 e0] [|p rest]]; simpl in Hsize; [| |lia].
  - unfold LRU.set, LRU.size, JsMap.size. simpl.
    destruct (cap <=? 0); reflexivity.
  - unfold LRU.set, LRU.size, JsMap.size, JsMap.has. simpl.
    destruct (String.eqb_spec key k0) as [->|Hne]; simpl.
    + rewrite andb_false_r. simpl. now rewrite String.eqb_refl.
    + destruct (Z.leb_spec cap 1); [|lia]. simpl.
      unfold LRU.evictLRU, LRU.oldest. simpl. now rewrite String.eqb_refl.
Qed.

End CacheUse.

(** ** Inserts alone: first in, first out *)

Section LastN.
Variable A : Type.
Implicit Types (l : list A) (n : nat).

Lemma length_last_n n l : List.length (last_n n l) = Nat.min n (List.length l).
Proof. unfold last_n. rewrite length_skipn. lia. Qed.

Lemma last_n_short n l : (List.length l <= n)%nat -> last_n n l = l.
Proof.
  intros Hle. unfold last_n.
  replace (List.length l - n)%nat with 0%nat by lia. reflexivity.
Qed.

Lemma last_n_incl n l x : In x (last_n n l) -> In x l.
Proof.
  unfold last_n. intros Hin.
  rewrite <- (firstn_skipn (List.length l - n) l). apply in_or_app. now right.
Qed.

Lemma tl_skipn n l : tl (skipn n l) = skipn (S n) l.
Proof.
  revert l. induction n as [|n IH]; intros [|x l]; simpl; auto.
Qed.

Lemma last_n_snoc_full n l x :
  (0 < n)%nat -> (n <= List.length l)%nat ->
  last_n n (l ++ [x]) = tl (last_n n l) ++ [x].
Proof.
  intros Hpos Hle. unfold last_n. rewrite tl_skipn, length_app. simpl.
  replace (List.length l + 1 - n)%nat with (S (List.length l - n)) by lia.
  rewrite skipn_app.
  replace (S (List.length l - n) - List.length l)%nat with 0%nat by lia.
  reflexivity.
Qed.

End LastN.

Section Fifo.
Variable V : Type.
Implicit Types (c : LRU.LRUCache V) (key : string) (v : V) (now : Z).

Local Abbreviation key_of :=
  (fun x : string * V * Z => fst (fst x)) (only parsing).
Local Abbreviation time_of :=
  (fun x : string * V * Z => snd x) (only parsing).

Lemma set_absent_append (m : JsMap.t (LRU.Entry V)) key (e : LRU.Entry V) :
  JsMap.has key m = false -> JsMap.set key e m = m ++ [(key, e)].
Proof.
  unfold JsMap.has. induction m as [|[k e0] rest IH]; simpl; [reflexivity|].
  destruct (String.eqb key k); [discriminate|].
  intros H. now rewrite IH.
Qed.

(** When no entry is older than the first one, the first one is the
    entry evictLRU picks. *)
Lemma oldest_of_sorted c k e rest :
  LRU.cache c = (k, e) :: rest ->
  Forall (fun p => LRU.lastAccessed e <= LRU.lastAccessed (snd p)) rest ->
  LRU.oldest c = Some k.
Proof.
  intros Hc Hall.
  destruct (oldest_spec c) as [[He _] | (l1 & k1 & e1 & l2 & Hsplit & Ho & H1 & H2)];
    [congruence|].
  rewrite Ho. rewrite Hc in Hsplit.
  destruct l1 as [|p l1]; simpl in Hsplit.
  - congruence.
  - injection Hsplit as <- ->.
    inversion H1 as [|? ? Hp _]; subst. simpl in Hp.
    rewrite Forall_forall in Hall.
    assert (Hin : In (k1, e1) (l1 ++ (k1, e1) :: l2))
      by (apply in_or_app; right; now left).
    specialize (Hall _ Hin). simpl in Hall. lia.
Qed.

Lemma insert_all_from (n : nat) (entries : list (string * V * Z)) :
  (0 < n)%nat ->
  forall c done,
    LRU.maxSize c = Z.of_nat n ->
    JsMap.keys (LRU.cache c) = last_n n done ->
    StronglySorted Z.le (stamps c ++ List.map time_of entries) ->
    NoDup (done ++ List.map key_of entries) ->
    JsMap.keys (LRU.cache (insert_all entries c))
    = last_n n (done ++ List.map key_of entries).
Proof.
  intros Hpos. induction entries as [|[[k v] t] entries IH];
    intros c done Hmax Hkeys Hsorted Hnodup; simpl.
  - now rewrite app_nil_r.
  - assert (Hfresh : ~ In k done).
    { intros Hin. apply NoDup_remove_2 in Hnodup. apply Hnodup.
      apply in_or_app. now left. }
    assert (Hnew : LRU.has k c = false).
    { unfold LRU.has. destruct (JsMap.has k (LRU.cache c)) eqn:Hhas; [|reflexivity].
      exfalso. apply Hfresh. apply (last_n_incl n). rewrite <- Hkeys.
      apply has_true_get in Hhas as [e He]. apply get_in in He.
      change k with (fst (k, e)). now apply in_map. }
    assert (Hlen : List.length (LRU.cache c) = Nat.min n (List.length done)).
    { rewrite <- length_last_n, <- Hkeys. unfold JsMap.keys.
      now rewrite length_map. }
    replace (done ++ k :: List.map key_of entries)
      with ((done ++ [k]) ++ List.map key_of entries)
      by (now rewrite <- app_assoc).
    apply IH.
    + now rewrite maxSize_set.
    + destruct (Nat.lt_ge_cases (List.length done) n) as [Hroom|Hfull].
      * rewrite set_room
          by (unfold LRU.size, JsMap.size; rewrite Hmax, Hlen; lia).
        simpl. unfold LRU.has in Hnew. rewrite set_absent_append by assumption.
        unfold JsMap.keys in *. rewrite map_app, Hkeys. simpl.
        rewrite !last_n_short; [reflexivity | rewrite length_app; simpl; lia | lia].
      * rewrite set_full
          by (try assumption; unfold LRU.size, JsMap.size; rewrite Hmax, Hlen; lia).
        rewrite evictLRU_unfold.
        destruct (LRU.cache c) as [|[k0 e0] rest] eqn:Hc; [simpl in Hlen; lia|].
        assert (Ho : LRU.oldest c = Some k0).
        { apply (oldest_of_sorted c Hc). unfold stamps in Hsorted.
          rewrite Hc in Hsorted. simpl in Hsorted.
          apply StronglySorted_inv in Hsorted as [_ Hall].
          rewrite Forall_forall in Hall |- *. intros p Hp. apply Hall.
          apply in_or_app. left.
          change (LRU.lastAccessed (snd p))
            with ((fun q : string * LRU.Entry V => LRU.lastAccessed (snd q)) p).
          now apply in_map. }
        rewrite Ho. simpl. rewrite String.eqb_refl.
        assert (Hnew' : JsMap.has k rest = false).
        { unfold LRU.has in Hnew. rewrite Hc in Hnew. unfold JsMap.has in *.
          simpl in Hnew. destruct (String.eqb k k0); [discriminate | assumption]. }
        rewrite set_absent_append by assumption.
        unfold JsMap.keys in *. rewrite map_app. simpl.
        rewrite last_n_snoc_full by assumption.
        rewrite <- Hkeys. reflexivity.
    + unfold stamps in *.
      destruct (Nat.lt_ge_cases (List.length done) n) as [Hroom|Hfull].
      * rewrite set_room
          by (unfold LRU.size, JsMap.size; rewrite Hmax, Hlen; lia).
        simpl. unfold LRU.has in Hnew. rewrite set_absent_append by assumption.
        rewrite map_app, <- app_assoc. exact Hsorted.
      * rewrite set_full
          by (try assumption; unfold LRU.size, JsMap.size; rewrite Hmax, Hlen; lia).
        rewrite evictLRU_unfold.
        destruct (LRU.cache c) as [|[k0 e0] rest] eqn:Hc; [simpl in Hlen; lia|].
        assert (Ho : LRU.oldest c = Some k0).
        { apply (oldest_of_sorted c Hc).
          simpl in Hsorted.
          apply StronglySorted_inv in Hsorted as [_ Hall].
          rewrite Forall_forall in Hall |- *. intros p Hp. apply Hall.
          apply in_or_app. left.
          change (LRU.lastAccessed (snd p))
            with ((fun q : string * LRU.Entry V => LRU.lastAccessed (snd q)) p).
          now apply in_map. }
        rewrite Ho. simpl. rewrite String.eqb_refl.
        assert (Hnew' : JsMap.has k rest = false).
        { unfold LRU.has in Hnew. rewrite Hc in Hnew. unfold JsMap.has in *.
          simpl in Hnew. destruct (String.eqb k k0); [discriminate | assumption]. }
        rewrite set_absent_append by assumption.
        rewrite map_app, <- app_assoc. simpl in Hsorted |- *.
        now apply StronglySorted_inv in Hsorted as [Htail _].
    + now rewrite <- app_assoc.
Qed.

(** X6. With inserts only, of distinct keys at readings that never go
    back, the cache is first in, first out: it ends with the last
    [capacity] keys inserted, in the order of their insertion. *)
Theorem inserts_keep_the_latest
  (capacity : nat) (entries : list (string * V * Z)) (c0 : LRU.LRUCache V)
  (Hpositive : (0 < capacity)%nat)
  (Hconstructed : LRU.constructor (Z.of_nat capacity) = Normal c0)
  (Hdistinct : NoDup (List.map key_of entries))
  (Hclock : StronglySorted Z.le (List.map time_of entries)) :
  JsMap.keys (LRU.cache (insert_all entries c0))
  = last_n capacity (List.map key_of entries).
Proof.
  injection Hconstructed as <-.
  apply (insert_all_from entries Hpositive
           (LRU.mkCache [] (Z.of_nat capacity)) []); auto.
Qed.

End Fifo.

(** * Further properties of the entry point *)

Section EntryPoint.
Variable clock : nat -> Z.
Variable moodboard_uri : string.

(** What a request that authenticates goes through: the attempt is
    logged, the server is fetched or built, and then the pathname
    decides. *)
Lemma handleApiKeyRequest_authenticated
      (request : Request) (env : Env) (pathname : string) (w : World)
      (userId email : string) :
  authenticated env request = Some (userId, email) ->
  let w1 := snd (logger (auth_attempt (Some (userId, email)) true) w) in
  let w2 := snd (getOrCreateServer clock env userId email w1) in
  exists server,
    fst (getOrCreateServer clock env userId email w1) = Normal server /\
    handleApiKeyRequest clock moodboard_uri request env pathname w =
    if String.eqb pathname "/mcp"
    then handleHTTPTransport clock moodboard_uri server request env userId email w2
    else (Normal (jsonError "Invalid endpoint. Use /mcp" 400), w2).
Proof.
  unfold authenticated, presented_key. intros Hauth. cbv zeta.
  destruct (authorization request) as [header|] eqn:Hheader; [|discriminate].
  destruct (String.eqb (Str.remove_first "Bearer " header) "") eqn:Hkey;
    [discriminate|].
  destruct (DB env (Str.remove_first "Bearer " header)) as [[user|]|] eqn:Hdb;
    try discriminate.
  injection Hauth as ->.
  destruct (getOrCreateServer_returns clock env userId email
              (snd (logger (auth_attempt (Some (userId, email)) true) w)))
    as (server & Hs).
  exists server. split; [now rewrite Hs|].
  unfold handleApiKeyRequest, try_catch, bind, await.
  rewrite Hheader. simpl. rewrite Hkey, Hdb. simpl.
  unfold logger in Hs. simpl in Hs. rewrite Hs. simpl.
  destruct (String.eqb pathname "/mcp"); [|reflexivity].
  destruct (handleHTTPTransport_spec clock moodboard_uri server request env
              userId email
              (snd (getOrCreateServer clock env userId email
                      {| serverCache := serverCache w; constructed := constructed w;
                         logged := logged w ++ [auth_attempt (Some (userId, email)) true];
                         ai_runs := ai_runs w; clock_reads := clock_reads w |})))
    as (rid & payload & w' & Ht & _).
  now rewrite Ht.
Qed.

Lemma handleApiKeyRequest_unauthenticated
  (request : Request) (env : Env) (pathname : string) (w : World)
  (Hrefused : authenticated env request = None) :
  let r := handleApiKeyRequest clock moodboard_uri request env pathname w in
  (exists message status,
      fst r = Normal (JsonErrorResponse message status) /\
      (status = 401 \/ status = 500)) /\
  serverCache (snd r) = serverCache w /\
  constructed (snd r) = constructed w /\
  ai_runs (snd r) = ai_runs w /\
  clock_reads (snd r) = clock_reads w.
Proof.
  revert Hrefused. unfold authenticated, presented_key. cbv zeta.
  unfold handleApiKeyRequest, try_catch, bind, await, missing.
  destruct (authorization request) as [header|]; simpl;
    [|intros _; repeat split; eauto].
  destruct (String.eqb (Str.remove_first "Bearer " header) ""); simpl;
    [intros _; repeat split; eauto|].
  destruct (DB env (Str.remove_first "Bearer " header)) as [[[u e]|]|error];
    simpl; [discriminate | |]; intros _; repeat split; eauto.
Qed.

(** X9. A request that does not authenticate (no header, an empty key, a
    key the database does not know, or a database that fails) is
    answered with status 401 or 500, and neither the cache, nor the
    count of servers built, nor the model, nor the clock is touched. *)
Theorem unauthenticated_request_touches_nothing
  (request : Request) (env : Env) (pathname : string) (w : World)
  (Hrefused : authenticated env request = None) :
  let r := handleApiKeyRequest clock moodboard_uri request env pathname w in
  (exists message status,
      fst r = Normal (JsonErrorResponse message status) /\
      (status = 401 \/ status = 500)) /\
  serverCache (snd r) = serverCache w /\
  constructed (snd r) = constructed w /\
  ai_runs (snd r) = ai_runs w /\
  clock_reads (snd r) = clock_reads w.
Proof. exact (handleApiKeyRequest_unauthenticated request env pathname w Hrefused). Qed.

(** X10. The entry point never throws: whatever the request, the
    environment and the world, it returns a response. *)
Theorem handleApiKeyRequest_always_responds
  (request : Request) (env : Env) (pathname : string) (w : World) :
  exists response,
    fst (handleApiKeyRequest clock moodboard_uri request env pathname w)
    = Normal response.
Proof.
  destruct (authenticated env request) as [[userId email]|] eqn:Hauth.
  - destruct (handleApiKeyRequest_authenticated request env pathname w Hauth)
      as (server & _ & ->).
    destruct (String.eqb pathname "/mcp"); [|simpl; eauto].
    match goal with
    | |- context [handleHTTPTransport _ _ _ _ _ _ _ ?w2] =>
        destruct (handleHTTPTransport_spec clock moodboard_uri server request env
                    userId email w2) as (rid & payload & w' & -> & _)
    end.
    simpl. eauto.
  - destruct (handleApiKeyRequest_unauthenticated request env pathname w Hauth)
      as ((message & status & -> & _) & _). eauto.
Qed.

(** X11. A valid key sent to another endpoint than /mcp is answered with
    status 400, but the server of the user has been fetched or built
    all the same: the user is in the cache afterwards. *)
Theorem wrong_endpoint_still_caches_the_server
  (request : Request) (env : Env) (pathname : string) (w : World)
  (userId email : string)
  (Hauth : authenticated env request = Some (userId, email))
  (Hpath : pathname <> "/mcp") :
  let r := handleApiKeyRequest clock moodboard_uri request env pathname w in
  fst r = Normal (JsonErrorResponse "Invalid endpoint. Use /mcp" 400) /\
  LRU.has userId (serverCache (snd r)) = true /\
  ai_runs (snd r) = ai_runs w.
Proof.
  cbv zeta.
  destruct (handleApiKeyRequest_authenticated request env pathname w Hauth)
    as (server & _ & ->).
  apply String.eqb_neq in Hpath. rewrite Hpath. simpl.
  split; [reflexivity|].
  destruct (JsMap.get userId (LRU.cache (serverCache w))) as [e|] eqn:He.
  - rewrite (@getOrCreateServer_hit clock env userId email _ e) by exact He.
    simpl. split; [|reflexivity].
    rewrite (@get_hit _ _ _ _ (clock (clock_reads w)) He). simpl.
    unfold LRU.has, JsMap.has. simpl. now rewrite get_set_same.
  - rewrite (@getOrCreateServer_miss clock env userId email _) by exact He.
    simpl. split; [apply has_after_set | reflexivity].
Qed.

End EntryPoint.

(** ** Invariants of the module state over any run of requests *)

Section Runs.
Variable clock : nat -> Z.
Variable moodboard_uri : string.

(** What one request does to the cache: nothing, a get that hits, or
    the set of a server built for the user. *)
Lemma handleApiKeyRequest_cache
      (request : Request) (env : Env) (pathname : string) (w : World) :
  let w' := snd (handleApiKeyRequest clock moodboard_uri request env pathname w) in
  (serverCache w' = serverCache w /\ constructed w' = constructed w) \/
  (exists userId e,
      JsMap.get userId (LRU.cache (serverCache w)) = Some e /\
      serverCache w' = snd (LRU.get userId (clock (clock_reads w)) (serverCache w)) /\
      constructed w' = constructed w) \/
  (exists userId email,
      JsMap.get userId (LRU.cache (serverCache w)) = None /\
      serverCache w' =
      snd (LRU.set userId
             {| ref := constructed w; bound_userId := userId; bound_email := email |}
             (clock (clock_reads w)) (serverCache w)) /\
      constructed w' = S (constructed w)).
Proof.
  cbv zeta.
  destruct (authenticated env request) as [[userId email]|] eqn:Hauth.
  - destruct (handleApiKeyRequest_authenticated clock moodboard_uri request env
                pathname w Hauth) as (server & _ & ->).
    assert (Hframe :
              forall w2,
                let r := (if String.eqb pathname "/mcp"
                          then handleHTTPTransport clock moodboard_uri server request
                                 env userId email w2
                          else (Normal (jsonError "Invalid endpoint. Use /mcp" 400), w2)) in
                serverCache (snd r) = serverCache w2 /\
                constructed (snd r) = constructed w2).
    { intros w2. cbv zeta. destruct (String.eqb pathname "/mcp"); [|auto].
      destruct (handleHTTPTransport_spec clock moodboard_uri server request env
                  userId email w2) as (rid & payload & w' & -> & Hc & Hn & _).
      auto. }
    match goal with
    | |- context [if _ then handleHTTPTransport _ _ _ _ _ _ _ ?w2 else _] =>
        destruct (Hframe w2) as [-> ->]
    end.
    right. destruct (JsMap.get userId (LRU.cache (serverCache w))) as [e|] eqn:He.
    + left. exists userId, e. split; [exact He|].
      rewrite (@getOrCreateServer_hit clock env userId email _ e) by exact He.
      auto.
    + right. exists userId, email. split; [exact He|].
      rewrite (@getOrCreateServer_miss clock env userId email _) by exact He.
      auto.
  - left.
    destruct (handleApiKeyRequest_unauthenticated clock moodboard_uri request
                env pathname w Hauth) as (_ & Hc & Hn & _).
    auto.
Qed.

Lemma handleApiKeyRequest_bounded
      (request : Request) (env : Env) (pathname : string) (w : World) :
  0 < LRU.maxSize (serverCache w) ->
  LRU.size (serverCache w) <= LRU.maxSize (serverCache w) ->
  let w' := snd (handleApiKeyRequest clock moodboard_uri request env pathname w) in
  LRU.maxSize (serverCache w') = LRU.maxSize (serverCache w) /\
  LRU.size (serverCache w') <= LRU.maxSize (serverCache w).
Proof.
  intros Hpos Hle. cbv zeta.
  destruct (handleApiKeyRequest_cache request env pathname w)
    as [[-> _] | [(userId & e & _ & -> & _) | (userId & email & _ & -> & _)]].
  - auto.
  - apply (step_bounded (LRU.OpGet userId (clock (clock_reads w))) _ Hpos Hle).
  - apply (step_bounded (LRU.OpSet userId _ (clock (clock_reads w))) _ Hpos Hle).
Qed.

Lemma serve_bounded (env : Env) (calls : list (Request * string)) :
  forall w,
    0 < LRU.maxSize (serverCache w) ->
    LRU.size (serverCache w) <= LRU.maxSize (serverCache w) ->
    Forall (fun r => LRU.size (serverCache (snd r)) <= LRU.maxSize (serverCache w))
           (serve clock moodboard_uri env calls w).
Proof.
  induction calls as [|[request pathname] calls IH]; intros w Hpos Hle; simpl;
    [constructor|].
  destruct (handleApiKeyRequest_bounded request env pathname w Hpos Hle)
    as [Hm Hs].
  constructor; [exact Hs|].
  rewrite <- Hm. apply IH; rewrite Hm; assumption.
Qed.

(** X7. Whatever requests arrive, from whomever, the module never holds
    more than MAX_CACHED_SERVERS servers. *)
Theorem cache_bounded_over_requests
  (env : Env) (calls : list (Request * string)) :
  Forall (fun r => LRU.size (serverCache (snd r)) <= MAX_CACHED_SERVERS)
         (serve clock moodboard_uri env calls initial_world).
Proof.
  apply (serve_bounded env calls initial_world); simpl.
  - unfold MAX_CACHED_SERVERS. lia.
  - unfold LRU.size, JsMap.size, MAX_CACHED_SERVERS. simpl. lia.
Qed.

Lemma in_set_cases (V : Type) (m : JsMap.t V) (key k : string) (v x : V) :
  In (k, x) (JsMap.set key v m) -> (k = key /\ x = v) \/ In (k, x) m.
Proof.
  induction m as [|[k0 v0] rest IH]; simpl.
  - intros [[= <- <-]|[]]. now left.
  - destruct (String.eqb_spec key k0) as [->|Hne]; simpl.
    + intros [[= <- <-]|Hin]; [now left | right; now right].
    + intros [Heq|Hin]; [right; now left|].
      destruct (IH Hin) as [?|?]; [now left | right; now right].
Qed.

Lemma in_delete (V : Type) (m : JsMap.t V) (key k : string) (x : V) :
  In (k, x) (JsMap.delete key m) -> In (k, x) m.
Proof.
  induction m as [|[k0 v0] rest IH]; simpl; [tauto|].
  destruct (String.eqb key k0); simpl; [now right|].
  intros [Heq|Hin]; [now left | right; auto].
Qed.

Lemma handleApiKeyRequest_bound_to_key
      (request : Request) (env : Env) (pathname : string) (w : World) :
  bound_to_key (serverCache w) ->
  bound_to_key
    (serverCache (snd (handleApiKeyRequest clock moodboard_uri request env pathname w))).
Proof.
  intros Hinv.
  destruct (handleApiKeyRequest_cache request env pathname w)
    as [[-> _] | [(userId & e & He & -> & _) | (userId & email & He & -> & _)]].
  - assumption.
  - rewrite (@get_hit _ _ _ _ (clock (clock_reads w)) He). simpl.
    intros key entry Hin. simpl in Hin.
    apply in_set_cases in Hin as [[-> ->]|Hin]; [|now apply Hinv].
    simpl. apply (Hinv userId e). now apply get_in.
  - intros key entry Hin. unfold LRU.set in Hin.
    destruct ((LRU.maxSize (serverCache w) <=? LRU.size (serverCache w))
              && negb (JsMap.has userId (LRU.cache (serverCache w))));
      [rewrite evictLRU_unfold in Hin;
       destruct (LRU.oldest (serverCache w))|];
      simpl in Hin; apply in_set_cases in Hin as [[-> ->]|Hin];
      try reflexivity; try (now apply Hinv).
    apply in_delete in Hin. now apply Hinv.
Qed.

Lemma getOrCreateServer_bound (env : Env) (userId email : string) (w : World) :
  bound_to_key (serverCache w) ->
  exists server,
    fst (getOrCreateServer clock env userId email w) = Normal server /\
    bound_userId server = userId.
Proof.
  intros Hinv.
  destruct (JsMap.get userId (LRU.cache (serverCache w))) as [e|] eqn:He.
  - rewrite (@getOrCreateServer_hit clock env userId email w e He).
    eexists. split; [reflexivity|]. apply (Hinv userId e). now apply get_in.
  - rewrite (@getOrCreateServer_miss clock env userId email w He).
    eexists. split; reflexivity.
Qed.

(** X8. After any run of requests every cached server is bound to the user
    id it is cached under, so that the server a user is given is one
    whose tool closures carry that user's id, never another's. *)
Theorem served_instances_belong_to_their_user
  (env : Env) (calls : list (Request * string)) (userId email : string) :
  Forall (fun r =>
            bound_to_key (serverCache (snd r)) /\
            exists server,
              fst (getOrCreateServer clock env userId email (snd r))
              = Normal server /\
              bound_userId server = userId)
         (serve clock moodboard_uri env calls initial_world).
Proof.
  assert (Hinit : bound_to_key (serverCache initial_world))
    by (intros key entry []).
  revert Hinit. generalize initial_world.
  induction calls as [|[request pathname] calls IH]; intros w Hinv; simpl;
    [constructor|].
  pose proof (handleApiKeyRequest_bound_to_key request env pathname w Hinv) as Hnext.
  constructor; [|now apply IH].
  split; [assumption | now apply getOrCreateServer_bound].
Qed.

End Runs.

(** * Further properties of the transport and of the tools *)

Section Transport.
Variable clock : nat -> Z.
Variable moodboard_uri : string.

Lemma getOrCreateServer_ai_runs (env : Env) (userId email : string) (w : World) :
  ai_runs (snd (getOrCreateServer clock env userId email w)) = ai_runs w.
Proof.
  destruct (JsMap.get userId (LRU.cache (serverCache w))) as [e|] eqn:He.
  - now rewrite (@getOrCreateServer_hit clock env userId email w e He).
  - now rewrite (@getOrCreateServer_miss clock env userId email w He).
Qed.

(** The model is run by one method only, tools/call of
    generate_mood_scene, and then once, on the emotion and the
    complexity read from the arguments with their defaults. *)
Lemma handleHTTPTransport_ai_runs
      (server : McpServer) (request : Request) (env : Env)
      (userId userEmail : string) (w : World) :
  let w' := snd (handleHTTPTransport clock moodboard_uri server request env
                   userId userEmail w) in
  ai_runs w' = ai_runs w \/
  exists v,
    body request = Normal v /\
    is_string "2.0" (property "jsonrpc" v) = true /\
    is_string "tools/call" (property "method" v) = true /\
    let params := or_else (property "params" v) (JObj []) in
    let args := property "arguments" params in
    is_string "generate_mood_scene" (property "name" params) = true /\
    ai_runs w' =
    ai_runs w ++ [(or_else (optional_property "emotion" args) (JStr ""),
                   or_else (optional_property "complexity" args) (JNum 5))].
Proof.
  cbv zeta. unfold handleHTTPTransport, try_catch, bind, await.
  destruct (body request) as [v|error] eqn:Hbody; simpl; [|now left].
  destruct (null_or_not v) as [->|Hv]; [now left|].
  rewrite (read_request_not_null Hv). simpl.
  destruct (is_string "2.0" (property "jsonrpc" v)) eqn:Hversion; simpl;
    [|now left].
  destruct (is_string "initialize" (property "method" v)); [now left|].
  destruct (is_string "ping" (property "method" v)); [now left|].
  destruct (is_string "tools/list" (property "method" v)); [now left|].
  destruct (is_string "tools/call" (property "method" v)) eqn:Hcall.
  - unfold handleToolsCall, params_or_empty. simpl.
    destruct (is_string "generate_mood_scene" _) eqn:Hname.
    + unfold enhanceEmotionToThreeJS, to_number, ai_run, Date_now, logger, try_catch,
        bind, await, ret. simpl.
      destruct (conversion_throws (or_else (optional_property "complexity" _) _));
        simpl; [now left|].
      destruct (conversion_throws (or_else (optional_property "emotion" _) _));
        simpl; [now left|].
      right. exists v. repeat split; auto.
      destruct (AI env _ _); reflexivity.
    + left. destruct (is_string "learn_mood_primitives" _).
      * unfold logger, bind, await, ret.
        destruct (conversion_throws _); reflexivity.
      * unfold bind, await, ret. destruct (to_string _); reflexivity.
  - destruct (is_string "resources/list" (property "method" v)); [now left|].
    destruct (is_string "resources/read" (property "method" v)).
    + left. unfold handleResourcesRead, bind, await, ret. simpl.
      destruct (is_string moodboard_uri _).
      * destruct (ASSETS env "/moodboard.html"); reflexivity.
      * destruct (to_string _); reflexivity.
    + left. destruct (is_string "prompts/list" (property "method" v));
        [reflexivity|].
      unfold bind, await, ret. destruct (to_string _); reflexivity.
Qed.

(** X13. Over the whole entry point: a request runs the model at most once,
    and only when it authenticates, goes to /mcp and is a tools/call of
    generate_mood_scene. *)
Theorem model_runs_only_for_generate_mood_scene
  (request : Request) (env : Env) (pathname : string) (w : World) :
  let w' := snd (handleApiKeyRequest clock moodboard_uri request env pathname w) in
  ai_runs w' = ai_runs w \/
  exists user v emotion complexity,
    authenticated env request = Some user /\
    pathname = "/mcp" /\
    body request = Normal v /\
    is_string "tools/call" (property "method" v) = true /\
    is_string "generate_mood_scene"
      (property "name" (or_else (property "params" v) (JObj []))) = true /\
    ai_runs w' = ai_runs w ++ [(emotion, complexity)].
Proof.
  cbv zeta.
  destruct (authenticated env request) as [[userId email]|] eqn:Hauth.
  - destruct (handleApiKeyRequest_authenticated clock moodboard_uri request env
                pathname w Hauth) as (server & _ & ->).
    destruct (String.eqb_spec pathname "/mcp") as [->|Hpath].
    + match goal with
      | |- context [handleHTTPTransport _ _ _ _ _ _ _ ?w2] =>
          destruct (handleHTTPTransport_ai_runs server request env userId email w2)
            as [Hsame | (v & Hbody & _ & Hcall & Hname & Hruns)]
      end.
      * left. rewrite Hsame, getOrCreateServer_ai_runs. reflexivity.
      * right. cbv zeta in Hruns. rewrite getOrCreateServer_ai_runs in Hruns.
        simpl in Hruns. exists (userId, email), v. do 2 eexists.
        repeat split; eauto.
    + left. simpl. now rewrite getOrCreateServer_ai_runs.
  - left.
    now destruct (handleApiKeyRequest_unauthenticated clock moodboard_uri
                    request env pathname w Hauth) as (_ & _ & _ & -> & _).
Qed.

(** X14. tools/call of generate_mood_scene refuses no arguments: whatever
    [params] carries beside the name (no arguments, arguments of the
    wrong type, values out of range), the answer is a tool result under
    the id of the request, not a JSON-RPC error. The model is run once,
    on the emotion and the complexity read with their defaults, and the
    result is the scene or the error of the model; unless the emotion
    or the complexity cannot be converted to a string, in which case
    the prompts cannot be built, the model is not run and the result is
    the tool error of that conversion. *)
Theorem generate_mood_scene_refuses_nothing
  (request : JsonRpcRequest) (env : Env) (userId userEmail : string) (w : World)
  (Hname : is_string "generate_mood_scene"
             (property "name" (params_or_empty request)) = true) :
  let args := property "arguments" (params_or_empty request) in
  let emotion := or_else (optional_property "emotion" args) (JStr "") in
  let complexity := or_else (optional_property "complexity" args) (JNum 5) in
  let height := or_else (optional_property "height" args) (JNum 600) in
  let tool_error := fun text =>
    {| content := ErrorText ("Error: " ++ text);
       structuredContent := None; isError := true |} in
  let r := handleToolsCall clock request env userId userEmail w in
  if conversion_throws complexity || conversion_throws emotion
  then
    fst r = Normal (JsonRpcResponse (id request)
                      (inl (ToolCallResult (tool_error cannot_convert)))) /\
    ai_runs (snd r) = ai_runs w
  else
    fst r = Normal (JsonRpcResponse (id request)
              (inl (ToolCallResult
                 match AI env emotion complexity with
                 | Normal response =>
                     let scene := {| code := cleanupCode (response_text response);
                                     emotion := emotion; height := height |} in
                     {| content := StringifyResult scene;
                        structuredContent := Some scene; isError := false |}
                 | Throw error => tool_error error
                 end))) /\
    ai_runs (snd r) = ai_runs w ++ [(emotion, complexity)].
Proof.
  cbv zeta. unfold handleToolsCall. rewrite Hname.
  unfold enhanceEmotionToThreeJS, to_number, ai_run, jsonRpcResponse, Date_now, logger,
    try_catch, bind, await, ret. simpl.
  destruct (conversion_throws (or_else (optional_property "complexity" _) _));
    simpl; [split; reflexivity|].
  destruct (conversion_throws (or_else (optional_property "emotion" _) _));
    simpl; [split; reflexivity|].
  destruct (AI env _ _); simpl; split; reflexivity.
Qed.

(** X15. A model that fails does not fail the request: the answer is a
    JSON-RPC result carrying the id of the request, whose tool result
    is flagged isError with the text "Error: " and the message; the
    failure is logged, and the cache is as it was. The message is that
    of the model, or, when the emotion or the complexity cannot be
    converted to a string, that of the conversion, which comes first. *)
Theorem failing_model_is_a_tool_error
  (server : McpServer) (env : Env) (userId userEmail error : string)
  (auth : option string) (request_id arguments : json) (w : World)
  (Hfails :
     AI env (or_else (optional_property "emotion" (Some arguments)) (JStr ""))
            (or_else (optional_property "complexity" (Some arguments)) (JNum 5))
     = Throw error) :
  let emotion := or_else (optional_property "emotion" (Some arguments)) (JStr "") in
  let complexity :=
    or_else (optional_property "complexity" (Some arguments)) (JNum 5) in
  let reported :=
    if conversion_throws complexity || conversion_throws emotion
    then cannot_convert else error in
  let request := {| authorization := auth;
                    body := Normal (generate_call request_id arguments) |} in
  let r := handleHTTPTransport clock moodboard_uri server request env
             userId userEmail w in
  fst r = Normal (JsonRpcResponse (Some request_id)
            (inl (ToolCallResult
                    {| content := ErrorText ("Error: " ++ reported);
                       structuredContent := None; isError := true |}))) /\
  logged (snd r) = logged w ++ [tool_failed "generate_mood_scene" reported] /\
  serverCache (snd r) = serverCache w.
Proof.
  cbv zeta.
  unfold handleHTTPTransport, handleToolsCall, enhanceEmotionToThreeJS, to_number, ai_run,
    jsonRpcResponse, Date_now, logger, try_catch, bind, await, ret.
  simpl. simpl in Hfails.
  repeat match goal with
  | |- context [conversion_throws ?x] => destruct (conversion_throws x)
  end; simpl; try rewrite Hfails; simpl; repeat split.
Qed.

(** X16. A method the transport does not know, a method name that is not a
    string included, is answered with the error -32601 naming it, under
    the id of the request; unless naming it throws, the method being a
    value that cannot be converted to a string: the error is then
    -32700 under the id "error". The world is left as it was. *)
Theorem unknown_method_is_reported
  (server : McpServer) (request : Request) (env : Env)
  (userId userEmail : string) (w : World) (v : json)
  (Hbody : body request = Normal v)
  (Hnotnull : v <> JNull)
  (Hversion : is_string "2.0" (property "jsonrpc" v) = true)
  (Hunknown : forall m, In m known_methods ->
                        is_string m (property "method" v) = false) :
  handleHTTPTransport clock moodboard_uri server request env userId userEmail w
  = (Normal
       match to_string (property "method" v) with
       | Normal _ =>
           JsonRpcResponse (property "id" v)
             (inr {| error_code := -32601;
                     message := MethodNotFound (property "method" v) |})
       | Throw error =>
           JsonRpcResponse (Some (JStr "error"))
             (inr {| error_code := -32700; message := ParseError error |})
       end,
     w).
Proof.
  unfold handleHTTPTransport, try_catch, bind, await.
  rewrite Hbody, (read_request_not_null Hnotnull). simpl. rewrite Hversion. simpl.
  rewrite !Hunknown by (simpl; tauto).
  destruct (to_string (property "method" v)); reflexivity.
Qed.


(** X18. A body that is not JSON, and the body [null], are answered with the
    error -32700 under the id "error"; the world is left as it was. *)
Theorem unparseable_body_is_a_parse_error
  (server : McpServer) (request : Request) (env : Env)
  (userId userEmail : string) (w : World)
  (Hbody : body request = Normal JNull \/ exists error, body request = Throw error) :
  exists error,
    handleHTTPTransport clock moodboard_uri server request env userId userEmail w
    = (Normal (JsonRpcResponse (Some (JStr "error"))
                 (inr {| error_code := -32700; message := ParseError error |})),
       w).
Proof.
  unfold handleHTTPTransport, try_catch, bind, await.
  destruct Hbody as [-> | [error ->]]; simpl; eexists; reflexivity.
Qed.

End Transport.

(** * Strings: the Authorization header and cleanupCode *)

Section Strings.
Implicit Types (s t p body : string) (c : ascii).
Local Open Scope string_scope.

Lemma prefix_app p s : String.prefix p (p ++ s) = true.
Proof.
  induction p as [|c p IH]; simpl; [now destruct s|].
  destruct (ascii_dec c c); [assumption | contradiction].
Qed.

Lemma prefix_split p s : String.prefix p s = true -> exists rest, s = p ++ rest.
Proof.
  revert s. induction p as [|c p IH]; intros s; simpl.
  - exists s. reflexivity.
  - destruct s as [|c' s]; simpl; [discriminate|].
    destruct (ascii_dec c c') as [<-|]; [|discriminate].
    intros Hp. destruct (IH _ Hp) as [rest ->]. now exists rest.
Qed.

Lemma substring_all s : String.substring 0 (String.length s) s = s.
Proof. induction s as [|c s IH]; simpl; [reflexivity | now rewrite IH]. Qed.

Lemma substring_app_right p s :
  String.substring (String.length p) (String.length s) (p ++ s) = s.
Proof. induction p as [|c p IH]; simpl; [apply substring_all | exact IH]. Qed.

Lemma substring_app_left p s :
  String.substring 0 (String.length p) (p ++ s) = p.
Proof.
  induction p as [|c p IH]; simpl; [now destruct s | now rewrite IH].
Qed.

Lemma append_assoc_string s t p : ((s ++ t) ++ p = s ++ t ++ p)%string.
Proof. induction s as [|c s IH]; simpl; [reflexivity | now rewrite IH]. Qed.

Lemma length_app_string p s :
  String.length (p ++ s) = (String.length p + String.length s)%nat.
Proof. induction p as [|c p IH]; simpl; [reflexivity | now rewrite IH]. Qed.

Lemma slice_from_app p s : Str.slice_from (String.length p) (p ++ s) = s.
Proof.
  unfold Str.slice_from. rewrite length_app_string.
  replace (String.length p + String.length s - String.length p)%nat
    with (String.length s) by lia.
  apply substring_app_right.
Qed.

Lemma endsWith_app p s : Str.endsWith s (p ++ s) = true.
Proof.
  unfold Str.endsWith. rewrite length_app_string.
  replace (String.length p + String.length s - String.length s)%nat
    with (String.length p) by lia.
  rewrite substring_app_right, String.eqb_refl.
  destruct (Nat.leb_spec (String.length s) (String.length p + String.length s));
    [reflexivity | lia].
Qed.

Lemma slice_until_last_app p s :
  Str.slice_until_last (String.length s) (p ++ s) = p.
Proof.
  unfold Str.slice_until_last. rewrite length_app_string.
  replace (String.length p + String.length s - String.length s)%nat
    with (String.length p) by lia.
  apply substring_app_left.
Qed.

Lemma remove_first_unfold p s :
  Str.remove_first p s =
  if String.prefix p s then Str.slice_from (String.length p) s
  else match s with
       | EmptyString => EmptyString
       | String c rest => String c (Str.remove_first p rest)
       end.
Proof. destruct s; reflexivity. Qed.

Lemma remove_first_prefix p s : Str.remove_first p (p ++ s) = s.
Proof.
  rewrite remove_first_unfold, prefix_app. apply slice_from_app.
Qed.

Lemma remove_first_absent p s :
  (forall a b, s <> (a ++ p ++ b)%string) -> Str.remove_first p s = s.
Proof.
  induction s as [|c s IH]; intros Habsent; rewrite remove_first_unfold.
  - destruct (String.prefix p "") eqn:Hp; [|reflexivity].
    apply prefix_split in Hp as [rest Hrest].
    exfalso. apply (Habsent "" rest). exact Hrest.
  - destruct (String.prefix p (String c s)) eqn:Hp.
    + apply prefix_split in Hp as [rest Hrest].
      exfalso. apply (Habsent "" rest). exact Hrest.
    + f_equal. apply IH. intros a b ->.
      apply (Habsent (String c a) b). reflexivity.
Qed.

(** *** trim *)

Lemma trimStart_clean s : starts_clean (Str.trimStart s).
Proof.
  induction s as [|c s IH]; simpl; [exact I|].
  destruct (Str.is_space c) eqn:Hc; [assumption | exact Hc].
Qed.

Lemma clean_trimStart s : starts_clean s -> Str.trimStart s = s.
Proof. destruct s as [|c s]; simpl; [reflexivity | now intros ->]. Qed.

Lemma trimEnd_clean s : starts_clean s -> starts_clean (Str.trimEnd s).
Proof.
  destruct s as [|c s]; simpl; [auto|]. intros Hc.
  destruct (Str.trimEnd s); [rewrite Hc|]; exact Hc.
Qed.

Lemma trimEnd_idem s : Str.trimEnd (Str.trimEnd s) = Str.trimEnd s.
Proof.
  induction s as [|c s IH]; simpl; [reflexivity|].
  destruct (Str.trimEnd s) as [|c' kept] eqn:Hs.
  - destruct (Str.is_space c) eqn:Hc; simpl; [reflexivity | now rewrite Hc].
  - change (Str.trimEnd (String c (String c' kept)))
      with (match Str.trimEnd (String c' kept) with
            | EmptyString =>
                if Str.is_space c then EmptyString else String c EmptyString
            | kept' => String c kept'
            end).
    now rewrite IH.
Qed.

Lemma trim_idem s : Str.trim (Str.trim s) = Str.trim s.
Proof.
  unfold Str.trim.
  rewrite (@clean_trimStart _ (@trimEnd_clean _ (trimStart_clean s))).
  apply trimEnd_idem.
Qed.

Lemma trimEnd_app s t c t' :
  Str.trimEnd t = String c t' -> Str.trimEnd (s ++ t) = (s ++ Str.trimEnd t)%string.
Proof.
  intros Ht. induction s as [|c0 s IH]; simpl; [reflexivity|].
  rewrite IH, Ht. now destruct s.
Qed.

(** A string that begins and ends with a character that is not white
    space is its own trim. *)
Lemma trim_clean_ends c s c' :
  Str.is_space c = false -> Str.is_space c' = false ->
  Str.trim (String c (s ++ String c' "")) = String c (s ++ String c' "").
Proof.
  intros Hc Hc'. unfold Str.trim.
  rewrite clean_trimStart by exact Hc.
  change (String c (s ++ String c' "")) with ((String c s) ++ String c' "")%string.
  assert (Hlast : Str.trimEnd (String c' "") = String c' "")
    by (simpl; now rewrite Hc').
  rewrite (@trimEnd_app (String c s) _ _ _ Hlast). now rewrite Hlast.
Qed.

End Strings.

(** ** cleanupCode *)

(** X21. What cleanupCode returns has no white space left in front or at
    the end. *)
Theorem cleanupCode_is_trimmed (code : string) :
  Str.trim (cleanupCode code) = cleanupCode code.
Proof. unfold cleanupCode. apply trim_idem. Qed.

(** X22. A block fenced as javascript or js is unwrapped, whatever it
    holds: what is left is the trimmed inside of the fence. *)
Theorem fenced_code_is_unwrapped (inside : string) :
  cleanupCode ("```javascript" ++ inside ++ "```") = Str.trim inside /\
  cleanupCode ("```js" ++ inside ++ "```") = Str.trim inside.
Proof.
  assert (Hback : Str.is_space "`" = false) by reflexivity.
  assert (Hends : forall s : string,
             Str.endsWith "```" (s ++ "```") = true /\
             Str.slice_until_last 3 (s ++ "```") = s).
  { intros s. split; [apply endsWith_app | apply (slice_until_last_app s "```")]. }
  split; unfold cleanupCode.
  - replace (Str.trim ("```javascript" ++ inside ++ "```"))
      with ("```javascript" ++ inside ++ "```")%string.
    + unfold Str.startsWith. rewrite prefix_app, slice_from_app.
      destruct (Hends inside) as [-> ->]. reflexivity.
    + symmetry.
      replace ("```javascript" ++ inside ++ "```")%string
        with (String "`" (("``javascript" ++ inside ++ "``") ++ String "`" ""))%string.
      * now apply trim_clean_ends.
      * rewrite !append_assoc_string. reflexivity.
  - replace (Str.trim ("```js" ++ inside ++ "```"))
      with ("```js" ++ inside ++ "```")%string.
    + unfold Str.startsWith.
      replace (String.prefix "```javascript" ("```js" ++ inside ++ "```"))
        with false by reflexivity.
      rewrite prefix_app, slice_from_app.
      destruct (Hends inside) as [-> ->]. reflexivity.
    + symmetry.
      replace ("```js" ++ inside ++ "```")%string
        with (String "`" (("``js" ++ inside ++ "``") ++ String "`" ""))%string.
      * now apply trim_clean_ends.
      * rewrite !append_assoc_string. reflexivity.
Qed.

(** X23. Code that carries no fence and no white space around it is
    returned as it is. *)
Theorem plain_code_is_unchanged (code : string)
  (Htrimmed : Str.trim code = code)
  (Hopen : Str.startsWith "```" code = false)
  (Hclose : Str.endsWith "```" code = false) :
  cleanupCode code = code.
Proof.
  unfold cleanupCode. rewrite Htrimmed.
  assert (Hnone : forall fence : string,
             Str.startsWith "```" fence = true ->
             Str.startsWith fence code = false).
  { intros fence Hfence. unfold Str.startsWith in *.
    destruct (String.prefix fence code) eqn:Hp; [|reflexivity].
    apply prefix_split in Hp as [rest ->].
    apply prefix_split in Hfence as [rest' ->].
    rewrite append_assoc_string, prefix_app in Hopen. discriminate. }
  rewrite (Hnone "```javascript"), (Hnone "```js") by reflexivity.
  now rewrite Hopen, Hclose.
Qed.

(** ** The Authorization header *)

(** X12. A key is taken from "Bearer key" and, as well, from the bare key
    when it holds no "Bearer ": either header, with a key the database
    knows, lets a ping through, and the user's server is cached. *)
Theorem bearer_or_bare_key_authenticates
  (clock : nat -> Z) (moodboard_uri : string) (env : Env) (w : World)
  (header key userId email : string) (request_id params : json)
  (Hnonempty : key <> "")
  (Hheader : header = ("Bearer " ++ key)%string \/
             (header = key /\
              forall a b, key <> (a ++ "Bearer " ++ b)%string))
  (Hknown : DB env key = Normal (Some (userId, email))) :
  let request := {| authorization := Some header;
                    body := Normal (envelope request_id (JStr "ping") params) |} in
  let r := handleApiKeyRequest clock moodboard_uri request env "/mcp" w in
  authenticated env request = Some (userId, email) /\
  fst r = Normal (JsonRpcResponse (Some request_id) (inl EmptyResult)) /\
  LRU.has userId (serverCache (snd r)) = true.
Proof.
  cbv zeta.
  assert (Hkey : Str.remove_first "Bearer " header = key).
  { destruct Hheader as [-> | [-> Habsent]];
      [apply remove_first_prefix | now apply remove_first_absent]. }
  assert (Hauth : authenticated env
                    {| authorization := Some header;
                       body := Normal (envelope request_id (JStr "ping") params) |}
                  = Some (userId, email)).
  { unfold authenticated, presented_key. simpl. rewrite Hkey.
    apply String.eqb_neq in Hnonempty. now rewrite Hnonempty, Hknown. }
  split; [exact Hauth|].
  destruct (handleApiKeyRequest_authenticated clock moodboard_uri _ env "/mcp" w Hauth)
    as (server & _ & ->).
  simpl. split; [reflexivity|].
  destruct (JsMap.get userId (LRU.cache (serverCache w))) as [e|] eqn:He.
  - rewrite (@getOrCreateServer_hit clock env userId email _ e) by exact He.
    simpl. rewrite (@get_hit _ _ _ _ (clock (clock_reads w)) He). simpl.
    unfold LRU.has, JsMap.has. simpl. now rewrite get_set_same.
  - rewrite (@getOrCreateServer_miss clock env userId email _) by exact He.
    simpl. apply has_after_set.
Qed.

(** ** Validated arguments *)

Lemma nonempty_string (s : string) :
  (1 <=? String.length s)%nat = true -> String.eqb s "" = false.
Proof. destruct s; [discriminate | reflexivity]. Qed.

(** What the schema lets through: a non-empty emotion, a complexity
    from 1 to 10 and a positive height when they are given, read from
    the fields of the same names. *)
Lemma inputSchema_accepts (fields : list (string * json))
      (input : GenerateMoodSceneInput) :
  inputSchema (Some (JObj fields)) = Some input ->
  JsMap.get "emotion" fields = Some (JStr (input_emotion input)) /\
  input_emotion input <> "" /\
  match input_complexity input with
  | Some n => JsMap.get "complexity" fields = Some (JNum n) /\ 1 <= n <= 10
  | None => JsMap.get "complexity" fields = None
  end /\
  match input_height input with
  | Some h => JsMap.get "height" fields = Some (JNum h) /\ 0 < h
  | None => JsMap.get "height" fields = None
  end.
Proof.
  unfold inputSchema, optional_int.
  destruct (JsMap.get "emotion" fields) as [[| | |e| |]|]; try discriminate.
  destruct (1 <=? String.length e)%nat eqn:He; [|discriminate].
  destruct (JsMap.get "complexity" fields) as [[| |n| | |]|]; try discriminate;
    [destruct ((1 <=? n) && (n <=? 10)) eqn:Hn; [|discriminate]|];
    (destruct (JsMap.get "height" fields) as [[| |h| | |]|]; try discriminate;
     [destruct (0 <? h) eqn:Hh; [|discriminate]|]);
    intros [= <-]; simpl; repeat split;
    try (apply String.eqb_neq; now apply nonempty_string);
    try (apply andb_prop in Hn as [H1 H2]; lia);
    try (apply Z.ltb_lt in Hh; lia).
Qed.


(** X20. On the OAuth-bound server, where the schema has been applied, the
    model is run once, on a non-empty emotion and a complexity from 1
    to 10, and the height of a scene returned is positive. *)
Theorem validated_scene_is_within_bounds
  (clock : nat -> Z) (env : Env) (props_userId : string)
  (props_email : option string) (args : jsvalue)
  (input : GenerateMoodSceneInput) (w : World)
  (Hvalid : inputSchema args = Some input)
  (Hprops : props_userId <> "") :
  let r := generate_mood_scene clock (Some props_userId) props_email env input w in
  (exists complexity,
      ai_runs (snd r) = ai_runs w ++ [(JStr (input_emotion input), JNum complexity)] /\
      1 <= complexity <= 10) /\
  input_emotion input <> "" /\
  (exists result,
      fst r = Normal result /\
      match structuredContent result with
      | Some scene => exists h, height scene = JNum h /\ 0 < h
      | None => isError result = true
      end).
Proof.
  cbv zeta.
  assert (Hobject : exists fields, args = Some (JObj fields)).
  { unfold inputSchema in Hvalid.
    destruct args as [[| | | | |fields]|]; try discriminate. eauto. }
  destruct Hobject as [fields ->].
  destruct (inputSchema_accepts fields Hvalid) as (_ & Hne & Hc & Hh).
  apply String.eqb_neq in Hprops.
  unfold generate_mood_scene, enhanceEmotionToThreeJS, to_number, ai_run, Date_now, logger,
    try_catch, bind, await, ret, missing.
  rewrite Hprops. simpl.
  assert (Hbound : 1 <= default_to 5 (input_complexity input) <= 10).
  { destruct (input_complexity input); simpl; [tauto | lia]. }
  assert (Hpositive : 0 < default_to 600 (input_height input)).
  { destruct (input_height input); simpl; [tauto | lia]. }
  destruct (AI env _ _); simpl; repeat split; eauto.
  all: eexists; split; [reflexivity|]; simpl; eauto.
Qed.

(** ** The visualize-feeling prompt *)

(** X24. The complexity written into the prompt is always from 1 to 10, and
    it is the default 5 when the argument is absent, empty, not a
    number, or a number that is zero. *)
Theorem validComplexity_bounds_and_default (complexity : option string) :
  1 <= Prompt.validComplexity complexity <= 10 /\
  ((complexity = None \/ complexity = Some "" \/
    exists s, complexity = Some s /\
              (Prompt.parseInt s = None \/ Prompt.parseInt s = Some 0)) ->
   Prompt.validComplexity complexity = 5).
Proof.
  split.
  - unfold Prompt.validComplexity. cbv zeta. lia.
  - unfold Prompt.validComplexity.
    intros [-> | [-> | (s & -> & Hs)]]; try reflexivity.
    destruct (String.eqb s ""); [reflexivity|].
    destruct Hs as [-> | ->]; reflexivity.
Qed.

(** X25. A number in front of the argument is what counts: a negative one
    gives 1, one above 10 gives 10, one from 1 to 10 itself. *)
Theorem validComplexity_clamps (s : string) (n : Z)
  (Hgiven : s <> "")
  (Hparsed : Prompt.parseInt s = Some n)
  (Hnonzero : n <> 0) :
  Prompt.validComplexity (Some s) = Z.min 10 (Z.max 1 n).
Proof.
  unfold Prompt.validComplexity. apply String.eqb_neq in Hgiven.
  rewrite Hgiven, Hparsed. destruct (Z.eqb_spec n 0); [contradiction | reflexivity].
Qed.

(** ** hasUISupport *)

Lemma includes_mime_type (items : list json) :
  existsb (fun item => is_string UI_MIME_TYPE (Some item)) items = true <->
  In (JStr UI_MIME_TYPE) items.
Proof.
  rewrite existsb_exists. split.
  - intros (item & Hin & Hitem). destruct item; try discriminate.
    simpl in Hitem. apply String.eqb_eq in Hitem. now subst.
  - intros Hin. exists (JStr UI_MIME_TYPE). split; [assumption|].
    reflexivity.
Qed.

(** X26. hasUISupport answers true exactly for capabilities that are an
    object whose [extensions] is an object, whose entry for the UI
    extension is an object, whose [mimeTypes] is an array that holds
    the MIME type of MCP apps; for anything else, whatever its shape,
    it answers false. *)
Theorem hasUISupport_true_iff (clientCapabilities : jsvalue) :
  hasUISupport clientCapabilities = true <->
  exists fields extensions ui mimeTypes,
    clientCapabilities = Some (JObj fields) /\
    JsMap.get "extensions" fields = Some (JObj extensions) /\
    JsMap.get UI_EXTENSION_ID extensions = Some (JObj ui) /\
    JsMap.get "mimeTypes" ui = Some (JArr mimeTypes) /\
    In (JStr UI_MIME_TYPE) mimeTypes.
Proof.
  split.
  - unfold hasUISupport, truthy_property.
    destruct clientCapabilities as [[| | | |items|fields]|]; try discriminate;
      simpl.
    destruct (JsMap.get "extensions" fields)
      as [[| b | n | s | items | extensions]|] eqn:He;
      simpl; try discriminate;
      try (destruct b; discriminate);
      try (destruct (n =? 0); discriminate);
      try (destruct (String.eqb s ""); discriminate).
    destruct (JsMap.get UI_EXTENSION_ID extensions)
      as [[| b | n | s | items | ui]|] eqn:Hu;
      simpl; try discriminate;
      try (destruct b; discriminate);
      try (destruct (n =? 0); discriminate);
      try (destruct (String.eqb s ""); discriminate).
    destruct (JsMap.get "mimeTypes" ui) as [[| | | |mimeTypes|]|] eqn:Hm;
      try discriminate.
    intros Hin. apply includes_mime_type in Hin.
    exists fields, extensions, ui, mimeTypes. auto.
  - intros (fields & extensions & ui & mimeTypes & -> & He & Hu & Hm & Hin).
    unfold hasUISupport, truthy_property. simpl. rewrite He. simpl.
    rewrite Hu. simpl. rewrite Hm. now apply includes_mime_type.
Qed.

(** * The further properties at sample inputs *)

Lemma set_keeps_other_entries_witness :
  JsMap.get "a" (LRU.cache (snd (LRU.set "c" 30%nat 9 Sample.at_capacity)))
  = JsMap.get "a" (LRU.cache Sample.at_capacity) /\
  (List.length (LRU.evicted (fst (LRU.set "c" 30%nat 9 Sample.at_capacity))) <= 1)%nat.
Proof.
  assert (Hother : "a" <> "c") by discriminate.
  assert (Hkept : ~ In "a" (LRU.evicted (fst (LRU.set "c" 30%nat 9 Sample.at_capacity))))
    by (simpl; intros [H|[]]; discriminate).
  exact (@set_keeps_other_entries nat Sample.at_capacity "c" 30%nat 9 "a"
           Hother Hkept).
Defined.

Lemma touched_entry_survives_witness :
  ~ In "b" (LRU.evicted
              (fst (LRU.set "c" 30%nat 10 (snd (LRU.get "b" 9 Sample.at_capacity))))) /\
  LRU.has "b" (snd (LRU.set "c" 30%nat 10 (snd (LRU.get "b" 9 Sample.at_capacity))))
  = true.
Proof.
  assert (Hdistinct : "a" <> "b") by discriminate.
  assert (Hlater : LRU.lastAccessed (LRU.mkEntry 10%nat 5) < 9) by (simpl; lia).
  exact (@touched_entry_survives nat Sample.at_capacity "b" (LRU.mkEntry 20%nat 3) 9
           "a" (LRU.mkEntry 10%nat 5) "c" 30%nat 10
           wf_at_capacity eq_refl eq_refl Hdistinct Hlater).
Defined.

Lemma capacity_one_holds_last_key_witness :
  LRU.cache (snd (LRU.set "b" 2%nat 7 (LRU.mkCache [("a", LRU.mkEntry 1%nat 5)] 1)))
  = [("b", LRU.mkEntry 2%nat 7)].
Proof.
  assert (Hcapacity : LRU.maxSize (LRU.mkCache [("a", LRU.mkEntry 1%nat 5)] 1) <= 1)
    by (simpl; lia).
  assert (Hsize : LRU.size (LRU.mkCache [("a", LRU.mkEntry 1%nat 5)] 1) <= 1)
    by (vm_compute; discriminate).
  exact (@capacity_one_holds_last_key nat
           (LRU.mkCache [("a", LRU.mkEntry 1%nat 5)] 1) "b" 2%nat 7
           Hcapacity Hsize).
Defined.

Lemma inserts_keep_the_latest_witness :
  JsMap.keys (LRU.cache (insert_all [("u1", 1%nat, 10); ("u2", 2%nat, 10);
                                     ("u3", 3%nat, 11)]
                                    (LRU.mkCache [] 2)))
  = ["u2"; "u3"].
Proof.
  assert (Hpositive : (0 < 2)%nat) by lia.
  assert (Hdistinct :
            NoDup (List.map (fun x : string * nat * Z => fst (fst x))
                     [("u1", 1%nat, 10); ("u2", 2%nat, 10); ("u3", 3%nat, 11)])).
  { simpl. repeat constructor; simpl; intuition discriminate. }
  assert (Hclock :
            StronglySorted Z.le
              (List.map (fun x : string * nat * Z => snd x)
                 [("u1", 1%nat, 10); ("u2", 2%nat, 10); ("u3", 3%nat, 11)])).
  { simpl. repeat constructor; lia. }
  exact (@inserts_keep_the_latest nat 2
           [("u1", 1%nat, 10); ("u2", 2%nat, 10); ("u3", 3%nat, 11)]
           (LRU.mkCache [] 2) Hpositive eq_refl Hdistinct Hclock).
Defined.

Lemma unauthenticated_request_touches_nothing_witness :
  let r := handleApiKeyRequest Sample.frozen_clock Sample.uri
             {| authorization := Some "Bearer nobody";
                body := Normal (envelope (JNum 1) (JStr "ping") JNull) |}
             Sample.env "/mcp" Sample.warm_world in
  (exists message status,
      fst r = Normal (JsonErrorResponse message status) /\
      (status = 401 \/ status = 500)) /\
  serverCache (snd r) = serverCache Sample.warm_world /\
  constructed (snd r) = constructed Sample.warm_world /\
  ai_runs (snd r) = ai_runs Sample.warm_world /\
  clock_reads (snd r) = clock_reads Sample.warm_world.
Proof.
  exact (@unauthenticated_request_touches_nothing Sample.frozen_clock Sample.uri
           {| authorization := Some "Bearer nobody";
              body := Normal (envelope (JNum 1) (JStr "ping") JNull) |}
           Sample.env "/mcp" Sample.warm_world eq_refl).
Defined.

Lemma wrong_endpoint_still_caches_the_server_witness :
  let r := handleApiKeyRequest Sample.frozen_clock Sample.uri
             Sample.wrong_version Sample.env "/sse" initial_world in
  fst r = Normal (JsonErrorResponse "Invalid endpoint. Use /mcp" 400) /\
  LRU.has "u" (serverCache (snd r)) = true /\
  ai_runs (snd r) = ai_runs initial_world.
Proof.
  assert (Hpath : "/sse" <> "/mcp") by discriminate.
  exact (@wrong_endpoint_still_caches_the_server Sample.frozen_clock Sample.uri
           Sample.wrong_version Sample.env "/sse" initial_world
           "u" "u@example.org" eq_refl Hpath).
Defined.

Lemma generate_mood_scene_refuses_nothing_witness :
  let call := fun arguments =>
    {| jsonrpc := Some (JStr "2.0"); id := Some (JNum 1);
       method := Some (JStr "tools/call");
       params := Some (JObj [("name", JStr "generate_mood_scene");
                             ("arguments", arguments)]) |} in
  let unprintable := JObj [("emotion", JObj [("toString", JNum 1)])] in
  let r := handleToolsCall Sample.frozen_clock (call unprintable) Sample.env
             "u" "u@example.org" initial_world in
  let r' := handleToolsCall Sample.frozen_clock (call (JNum 7)) Sample.env
              "u" "u@example.org" initial_world in
  (fst r = Normal (JsonRpcResponse (Some (JNum 1))
             (inl (ToolCallResult
                     {| content :=
                          ErrorText "Error: Cannot convert object to primitive value";
                        structuredContent := None; isError := true |}))) /\
   ai_runs (snd r) = []) /\
  (exists result,
      fst r' = Normal (JsonRpcResponse (Some (JNum 1)) (inl (ToolCallResult result)))) /\
  ai_runs (snd r') = [(JStr "", JNum 5)].
Proof.
  split.
  - exact (@generate_mood_scene_refuses_nothing Sample.frozen_clock
             {| jsonrpc := Some (JStr "2.0"); id := Some (JNum 1);
                method := Some (JStr "tools/call");
                params := Some (JObj [("name", JStr "generate_mood_scene");
                                      ("arguments",
                                       JObj [("emotion",
                                              JObj [("toString", JNum 1)])])]) |}
             Sample.env "u" "u@example.org" initial_world eq_refl).
  - destruct (@generate_mood_scene_refuses_nothing Sample.frozen_clock
                {| jsonrpc := Some (JStr "2.0"); id := Some (JNum 1);
                   method := Some (JStr "tools/call");
                   params := Some (JObj [("name", JStr "generate_mood_scene");
                                         ("arguments", JNum 7)]) |}
                Sample.env "u" "u@example.org" initial_world eq_refl)
      as [Hresult Hruns].
    split; [eexists; exact Hresult | exact Hruns].
Defined.

Lemma failing_model_is_a_tool_error_witness :
  let env := {| AI := fun _ _ => Throw "model unavailable";
                AI_GATEWAY_ID := None;
                ASSETS := fun _ => Normal "<html></html>";
                DB := fun _ => Normal None |} in
  let request := fun arguments =>
    {| authorization := None;
       body := Normal (generate_call (JNum 1) arguments) |} in
  let r := handleHTTPTransport Sample.frozen_clock Sample.uri Sample.server
             (request (JObj [("emotion", JStr "calm")]))
             env "u" "u@example.org" initial_world in
  let r' := handleHTTPTransport Sample.frozen_clock Sample.uri Sample.server
              (request (JObj [("emotion", JObj [("toString", JNum 1)])]))
              env "u" "u@example.org" initial_world in
  (fst r = Normal (JsonRpcResponse (Some (JNum 1))
             (inl (ToolCallResult
                     {| content := ErrorText "Error: model unavailable";
                        structuredContent := None; isError := true |}))) /\
   logged (snd r) = [tool_failed "generate_mood_scene" "model unavailable"] /\
   serverCache (snd r) = serverCache initial_world) /\
  (fst r' = Normal (JsonRpcResponse (Some (JNum 1))
              (inl (ToolCallResult
                      {| content :=
                           ErrorText "Error: Cannot convert object to primitive value";
                         structuredContent := None; isError := true |}))) /\
   logged (snd r') = [tool_failed "generate_mood_scene"
                        "Cannot convert object to primitive value"] /\
   serverCache (snd r') = serverCache initial_world).
Proof.
  split.
  - exact (@failing_model_is_a_tool_error Sample.frozen_clock Sample.uri Sample.server
             {| AI := fun _ _ => Throw "model unavailable";
                AI_GATEWAY_ID := None;
                ASSETS := fun _ => Normal "<html></html>";
                DB := fun _ => Normal None |}
             "u" "u@example.org" "model unavailable" None (JNum 1)
             (JObj [("emotion", JStr "calm")]) initial_world eq_refl).
  - exact (@failing_model_is_a_tool_error Sample.frozen_clock Sample.uri Sample.server
             {| AI := fun _ _ => Throw "model unavailable";
                AI_GATEWAY_ID := None;
                ASSETS := fun _ => Normal "<html></html>";
                DB := fun _ => Normal None |}
             "u" "u@example.org" "model unavailable" None (JNum 1)
             (JObj [("emotion", JObj [("toString", JNum 1)])]) initial_world eq_refl).
Defined.

Lemma unknown_method_is_reported_witness :
  let request := fun method =>
    {| authorization := None;
       body := Normal (envelope (JNum 1) method JNull) |} in
  handleHTTPTransport Sample.frozen_clock Sample.uri Sample.server
    (request (JNum 42)) Sample.env "u" "u@example.org" initial_world
  = (Normal (JsonRpcResponse (Some (JNum 1))
               (inr {| error_code := -32601;
                       message := MethodNotFound (Some (JNum 42)) |})),
     initial_world) /\
  handleHTTPTransport Sample.frozen_clock Sample.uri Sample.server
    (request (JObj [("toString", JNum 1)])) Sample.env "u" "u@example.org"
    initial_world
  = (Normal (JsonRpcResponse (Some (JStr "error"))
               (inr {| error_code := -32700;
                       message :=
                         ParseError "Cannot convert object to primitive value" |})),
     initial_world).
Proof.
  split.
  - assert (Hnotnull : envelope (JNum 1) (JNum 42) JNull <> JNull) by discriminate.
    assert (Hunknown : forall m, In m known_methods ->
                         is_string m (property "method"
                                        (envelope (JNum 1) (JNum 42) JNull)) = false)
      by (intros m _; reflexivity).
    exact (@unknown_method_is_reported Sample.frozen_clock Sample.uri Sample.server
             {| authorization := None;
                body := Normal (envelope (JNum 1) (JNum 42) JNull) |}
             Sample.env "u" "u@example.org" initial_world
             (envelope (JNum 1) (JNum 42) JNull)
             eq_refl Hnotnull eq_refl Hunknown).
  - assert (Hnotnull : envelope (JNum 1) (JObj [("toString", JNum 1)]) JNull <> JNull)
      by discriminate.
    assert (Hunknown : forall m, In m known_methods ->
                         is_string m
                           (property "method"
                              (envelope (JNum 1) (JObj [("toString", JNum 1)]) JNull))
                         = false)
      by (intros m _; reflexivity).
    exact (@unknown_method_is_reported Sample.frozen_clock Sample.uri Sample.server
             {| authorization := None;
                body := Normal (envelope (JNum 1) (JObj [("toString", JNum 1)])
                                  JNull) |}
             Sample.env "u" "u@example.org" initial_world
             (envelope (JNum 1) (JObj [("toString", JNum 1)]) JNull)
             eq_refl Hnotnull eq_refl Hunknown).
Defined.


Lemma unparseable_body_is_a_parse_error_witness :
  exists error,
    handleHTTPTransport Sample.frozen_clock Sample.uri Sample.server
      {| authorization := None; body := Normal JNull |}
      Sample.env "u" "u@example.org" initial_world
    = (Normal (JsonRpcResponse (Some (JStr "error"))
                 (inr {| error_code := -32700; message := ParseError error |})),
       initial_world).
Proof.
  exact (@unparseable_body_is_a_parse_error Sample.frozen_clock Sample.uri
           Sample.server {| authorization := None; body := Normal JNull |}
           Sample.env "u" "u@example.org" initial_world (or_introl eq_refl)).
Defined.

Lemma plain_code_is_unchanged_witness :
  cleanupCode "scene.add(mesh);" = "scene.add(mesh);".
Proof.
  exact (@plain_code_is_unchanged "scene.add(mesh);" eq_refl eq_refl eq_refl).
Defined.

Lemma bearer_or_bare_key_authenticates_witness :
  let request := {| authorization := Some "k1";
                    body := Normal (envelope (JNum 1) (JStr "ping") JNull) |} in
  let r := handleApiKeyRequest Sample.frozen_clock Sample.uri request Sample.env
             "/mcp" initial_world in
  authenticated Sample.env request = Some ("u", "u@example.org") /\
  fst r = Normal (JsonRpcResponse (Some (JNum 1)) (inl EmptyResult)) /\
  LRU.has "u" (serverCache (snd r)) = true.
Proof.
  assert (Hnonempty : "k1" <> "") by discriminate.
  assert (Habsent : forall a b : string, "k1" <> (a ++ "Bearer " ++ b)%string).
  { intros [|c1 [|c2 [|c3 a]]] b; simpl; intros H; discriminate H. }
  exact (@bearer_or_bare_key_authenticates Sample.frozen_clock Sample.uri Sample.env
           initial_world "k1" "k1" "u" "u@example.org" (JNum 1) JNull
           Hnonempty (or_intror (conj eq_refl Habsent)) eq_refl).
Defined.


Lemma validated_scene_is_within_bounds_witness :
  exists complexity,
    ai_runs (snd (generate_mood_scene Sample.frozen_clock (Some "u") None Sample.env
                    {| input_emotion := "calm"; input_complexity := None;
                       input_height := Some 400 |} initial_world))
    = [(JStr "calm", JNum complexity)] /\
    1 <= complexity <= 10.
Proof.
  assert (Hprops : "u" <> "") by discriminate.
  exact (proj1 (@validated_scene_is_within_bounds Sample.frozen_clock Sample.env
                  "u" None
                  (Some (JObj [("emotion", JStr "calm"); ("height", JNum 400)]))
                  {| input_emotion := "calm"; input_complexity := None;
                     input_height := Some 400 |}
                  initial_world eq_refl Hprops)).
Defined.

Lemma validComplexity_clamps_witness :
  Prompt.validComplexity (Some " 42 objects") = 10 /\
  Prompt.validComplexity (Some "-3") = 1.
Proof.
  assert (H42 : " 42 objects" <> "") by discriminate.
  assert (H3 : "-3" <> "") by discriminate.
  assert (N42 : 42 <> 0) by lia.
  assert (N3 : -3 <> 0) by lia.
  split.
  - exact (@validComplexity_clamps " 42 objects" 42 H42 eq_refl N42).
  - exact (@validComplexity_clamps "-3" (-3) H3 eq_refl N3).
Defined.
